(** * editor-pdf: the overlay-edit client, embedded in Rocq

  A shallow embedding of the TypeScript front end of editor-pdf
  ([frontend/src/types.ts], [api.ts], [App.tsx],
  [components/PdfViewer.tsx], [components/Toolbar.tsx],
  [components/EditPanel.tsx], [components/UploadArea.tsx]) and the proofs of
  the properties its specification states about it and of further
  properties of the handlers and of whole sessions.

  Conventions of the embedding:
  - a JavaScript [number] that holds a coordinate, a size or a zoom factor
    is a binary64 float (the kernel's primitive floats, which compute);
    a [number] that holds a page index, a count or an HTTP status is an
    integer;
  - a JavaScript string is its list of UTF-16 code units;
  - React state is passed explicitly: a handler is a function from the
    state before to the state after (and to the effects it performs);
  - a promise that may reject is a value of [result]. *)

From Stdlib Require Import ZArith NArith List Bool String Ascii Floats Lia.
From Stdlib Require Import DecimalString DecimalZ DecimalPos.
From stdpp Require Import base list gmap sets.

Set Warnings "-register-all".


(* ===================================================================== *)
(** * JavaScript values and built-ins *)
(* ===================================================================== *)

Module JS.

(** [number], for coordinates. *)
Definition number : Set := float.

(** [Math.abs(x)], [a < b] and [a - b] on numbers, the operations of the
    comparison [Math.abs(a - b) < 1]. *)
Definition Math_abs (x : number) : number := PrimFloat.abs x.

Definition num_lt (a b : number) : bool := PrimFloat.ltb a b.

Definition num_sub (a b : number) : number := PrimFloat.sub a b.

(** Strings: UTF-16 code units. *)
Definition jsstring : Set := list N.

(** An ASCII literal of the source as a [jsstring]. *)
Definition lit (s : string) : jsstring :=
  List.map N_of_ascii (list_ascii_of_string s).

(** Truthiness of a string: the empty string is the only falsy one. *)
Definition truthy (s : jsstring) : bool :=
  match s with [] => false | _ :: _ => true end.

(** [s1 === s2] on strings. *)
Definition str_eq (s1 s2 : jsstring) : bool := bool_decide (s1 = s2).

(** ECMAScript's WhiteSpace and LineTerminator code points, the ones
    [String.prototype.trim] strips. *)
Definition isWhiteSpace (c : N) : bool :=
  match c with
  | 9%N | 10%N | 11%N | 12%N | 13%N | 32%N | 160%N | 5760%N
  | 8232%N | 8233%N | 8239%N | 8287%N | 12288%N | 65279%N => true
  | _ => (8192 <=? c)%N && (c <=? 8202)%N
  end.

Fixpoint trimStart (s : jsstring) : jsstring :=
  match s with
  | [] => []
  | c :: s' => if isWhiteSpace c then trimStart s' else s
  end.

Definition trimEnd (s : jsstring) : jsstring := rev (trimStart (rev s)).

Definition trim (s : jsstring) : jsstring := trimEnd (trimStart s).

(** [`${n}`] for an integer-valued number: its decimal digits, as
    JavaScript prints every integer below 10^21 in magnitude. *)
Definition Number_toString (z : Z) : jsstring :=
  lit (NilZero.string_of_int (Z.to_int z)).

(** [s] occurs in [t] ([t.includes(s)]). *)
Definition includes (t s : jsstring) : Prop :=
  exists pre post, t = pre ++ s ++ post.

(** [Array.prototype.findIndex]: the first index whose element satisfies
    [p], and [-1] when there is none. *)
Fixpoint findIndex {A : Type} (p : A -> bool) (l : list A) : Z :=
  match l with
  | [] => (-1)%Z
  | x :: l' =>
      if p x then 0%Z
      else let i := findIndex p l' in
           if (0 <=? i)%Z then (i + 1)%Z else (-1)%Z
  end.

(** [Array.prototype.find]: the first element that satisfies [p], or
    [undefined]. *)
Fixpoint find {A : Type} (p : A -> bool) (l : list A) : option A :=
  match l with
  | [] => None
  | x :: l' => if p x then Some x else find p l'
  end.

(** What a [throw] carries: an [Error] with its message, or a value that
    has no [message] property. *)
Inductive thrown : Set :=
  | Error (message : jsstring)
  | Other.

(** [err?.message], [undefined] when there is none. *)
Definition message_of (e : thrown) : option jsstring :=
  match e with Error m => Some m | Other => None end.

(** The outcome of an awaited promise or of a block that may throw. *)
Inductive result (A : Type) : Type :=
  | Return (a : A)
  | Throw (e : thrown).
Arguments Return {A} a.
Arguments Throw {A} e.

(** [p.catch(() => d)]. *)
Definition catch {A : Type} (p : result A) (d : A) : A :=
  match p with Return a => a | Throw _ => d end.

(** [a ?? d]. *)
Definition nullish {A : Type} (a : option A) (d : A) : A :=
  match a with Some x => x | None => d end.

(** [a + b] and [a * b] on numbers. *)
Definition num_add (a b : number) : number := PrimFloat.add a b.

Definition num_mul (a b : number) : number := PrimFloat.mul a b.

(** [Math.min(x, y)] and [Math.max(x, y)]: [NaN] when an argument is
    [NaN]; [-0] counts as smaller than [+0]. *)
Definition Math_min (x y : number) : number :=
  if PrimFloat.is_nan x || PrimFloat.is_nan y then PrimFloat.nan
  else if PrimFloat.ltb x y then x
  else if PrimFloat.ltb y x then y
  else if PrimFloat.get_sign x then x else y.

Definition Math_max (x y : number) : number :=
  if PrimFloat.is_nan x || PrimFloat.is_nan y then PrimFloat.nan
  else if PrimFloat.ltb x y then y
  else if PrimFloat.ltb y x then x
  else if PrimFloat.get_sign x then y else x.

End JS.

Import JS.

(* ===================================================================== *)
(** * Shared types ([types.ts]) *)
(* ===================================================================== *)

Module Rect.
Record t : Set := mk { x0 : number; y0 : number; x1 : number; y1 : number }.
End Rect.

Module TextSpan.
Record t : Set := mk {
  text : jsstring;
  font : jsstring;
  size : number;
  color : jsstring;
  rect : Rect.t;
  flags : Z
}.
End TextSpan.

Module PageText.
Record t : Set := mk {
  page : Z;
  width : number;
  height : number;
  spans : list TextSpan.t
}.
End PageText.

Module PageDimension.
Record t : Set := mk { page : Z; width : number; height : number }.
End PageDimension.

Module DocumentInfo.
Record t : Set := mk {
  id : jsstring;
  filename : jsstring;
  pageCount : Z;
  pages : list PageDimension.t
}.
End DocumentInfo.

Module EditOperation.
Record t : Set := mk {
  key : jsstring;   (* unique client-side key *)
  page : Z;
  rect : Rect.t;
  original_text : jsstring;
  new_text : jsstring;
  font : jsstring;
  font_size : number;
  color : jsstring
}.
End EditOperation.

(* ===================================================================== *)
(** * API client ([api.ts]) *)
(* ===================================================================== *)

Module Api.

(** The bytes of a document. *)
Definition Blob : Set := list N.

(** An uploaded [File]: its name and its bytes. *)
Record File : Set := mkFile { file_name : jsstring; file_bytes : Blob }.

(** The values [JSON.stringify] is applied to. An object keeps its
    properties in creation order. *)
Inductive JSValue : Set :=
  | JNumber (x : number)
  | JInteger (z : Z)
  | JString (s : jsstring)
  | JArray (items : list JSValue)
  | JObject (props : list (jsstring * JSValue)).

Inductive Body : Set :=
  | NoBody
  | FormBody (file : File)
  | TextBody (s : jsstring).

Record Request : Set := mkRequest {
  url : jsstring;
  method : jsstring;
  headers : list (jsstring * jsstring);
  body : Body
}.

(** What the code reads of a [Response]: the [ok] flag, the status, and
    the body read as text, parsed as JSON and cast to [T], or read as a
    blob. Each read of the body is a promise that may reject. [fetch]
    itself is a function to [result]: it rejects when no response
    arrives. *)
Record Response (T : Type) : Type := mkResponse {
  ok : bool;
  status : Z;
  text : result jsstring;
  json : result T;
  blob : result Blob
}.
Arguments mkResponse {T} _ _ _ _ _.
Arguments ok {T} _.
Arguments status {T} _.
Arguments text {T} _.
Arguments json {T} _.
Arguments blob {T} _.

(** An [EditOperation] as the object literal [confirmEdit] builds. *)
Definition Rect_object (r : Rect.t) : JSValue :=
  JObject [ (lit "x0", JNumber (Rect.x0 r)); (lit "y0", JNumber (Rect.y0 r));
            (lit "x1", JNumber (Rect.x1 r)); (lit "y1", JNumber (Rect.y1 r)) ].

Definition EditOperation_props (e : EditOperation.t) : list (jsstring * JSValue) :=
  [ (lit "key", JString (EditOperation.key e));
    (lit "page", JInteger (EditOperation.page e));
    (lit "rect", Rect_object (EditOperation.rect e));
    (lit "original_text", JString (EditOperation.original_text e));
    (lit "new_text", JString (EditOperation.new_text e));
    (lit "font", JString (EditOperation.font e));
    (lit "font_size", JNumber (EditOperation.font_size e));
    (lit "color", JString (EditOperation.color e)) ].

(** [({ k, ...rest }) => rest]: every property but [k], in order. *)
Definition rest_without (k : jsstring) (props : list (jsstring * JSValue))
  : list (jsstring * JSValue) :=
  List.filter (fun p => negb (str_eq (fst p) k)) props.

Section Client.

(** [import.meta.env]. *)
Variable DEV : bool.
Variable VITE_API_URL : option jsstring.

(** Built-ins of the platform. [encodeURIComponent] throws a [URIError]
    on a string with a lone surrogate. *)
Variable encodeURIComponent : jsstring -> result jsstring.
Variable JSON_stringify : JSValue -> jsstring.

Definition BASE : jsstring :=
  if DEV then nullish VITE_API_URL (lit "") else lit "".

Section Endpoint.

Context {T : Type}.
Variable fetch : Request -> result (Response T).

Definition request (path : jsstring) (init : option (jsstring * Body))
  : result T :=
  match fetch (mkRequest (BASE ++ path)
                         (match init with Some (m, _) => m | None => lit "GET" end)
                         []
                         (match init with Some (_, b) => b | None => NoBody end)) with
  | Throw e => Throw e
  | Return res =>
      if negb (ok res) then
        let body := catch (text res) (lit "") in
        Throw (Error (lit "API " ++ Number_toString (status res) ++ lit ": " ++ body))
      else json res
  end.

(** The payload of an export: [{ edits: edits.map(({ key, ...rest }) => rest) }]. *)
Definition exportPayload (edits : list EditOperation.t) : JSValue :=
  JObject [ (lit "edits",
             JArray (List.map (fun e => JObject (rest_without (lit "key") (EditOperation_props e)))
                              edits)) ].

Definition exportRequest (docId : jsstring) (edits : list EditOperation.t)
  : Request :=
  mkRequest (BASE ++ lit "/api/documents/" ++ docId ++ lit "/export")
            (lit "POST")
            [ (lit "Content-Type", lit "application/json") ]
            (TextBody (JSON_stringify (exportPayload edits))).

Definition exportDocument (docId : jsstring) (edits : list EditOperation.t)
  : result Blob :=
  match fetch (exportRequest docId edits) with
  | Throw e => Throw e
  | Return res =>
      if negb (ok res) then
        let body := catch (text res) (lit "") in
        Throw (Error (lit "Export failed (" ++ Number_toString (status res)
                        ++ lit "): " ++ body))
      else blob res
  end.

End Endpoint.

Definition uploadDocument (fetch : Request -> result (Response DocumentInfo.t))
  (file : File) : result DocumentInfo.t :=
  request fetch (lit "/api/documents") (Some (lit "POST", FormBody file)).

Definition documentFileUrl (docId : jsstring) : jsstring :=
  BASE ++ lit "/api/documents/" ++ docId ++ lit "/file".

Definition getPageText (fetch : Request -> result (Response PageText.t))
  (docId : jsstring) (page : Z) : result PageText.t :=
  request fetch (lit "/api/documents/" ++ docId ++ lit "/pages/"
                   ++ Number_toString page ++ lit "/text") None.

(** [listFonts]: the [fonts] field of the parsed answer. *)
Definition listFonts (fetch : Request -> result (Response (list jsstring)))
  (docId : jsstring) : result (list jsstring) :=
  request fetch (lit "/api/documents/" ++ docId ++ lit "/fonts") None.

Definition fontFileUrl (docId fontName : jsstring) : result jsstring :=
  match encodeURIComponent fontName with
  | Throw e => Throw e
  | Return encoded =>
      Return (BASE ++ lit "/api/documents/" ++ docId ++ lit "/fonts/" ++ encoded)
  end.

End Client.

End Api.

(* ===================================================================== *)
(** * The application ([App.tsx]) and its toolbar ([Toolbar.tsx]) *)
(* ===================================================================== *)

Module App.

Inductive ToastType : Set := success | error.

Record Toast : Set := mkToast {
  toast_id : Z;
  toast_message : jsstring;
  toast_type : ToastType
}.

(** The [useState] cells of [App], with the module-level [toastId]. *)
Record State : Set := mkState {
  toastId : Z;
  docInfo : option DocumentInfo.t;
  uploading : bool;
  exporting : bool;
  currentPage : Z;
  zoom : number;
  edits : list EditOperation.t;
  toasts : list Toast
}.

Definition setDocInfo (v : option DocumentInfo.t) (s : State) : State :=
  mkState (toastId s) v (uploading s) (exporting s) (currentPage s) (zoom s) (edits s) (toasts s).
Definition setUploading (v : bool) (s : State) : State :=
  mkState (toastId s) (docInfo s) v (exporting s) (currentPage s) (zoom s) (edits s) (toasts s).
Definition setExporting (v : bool) (s : State) : State :=
  mkState (toastId s) (docInfo s) (uploading s) v (currentPage s) (zoom s) (edits s) (toasts s).
Definition setCurrentPage (f : Z -> Z) (s : State) : State :=
  mkState (toastId s) (docInfo s) (uploading s) (exporting s) (f (currentPage s)) (zoom s) (edits s) (toasts s).
Definition setEdits (f : list EditOperation.t -> list EditOperation.t) (s : State) : State :=
  mkState (toastId s) (docInfo s) (uploading s) (exporting s) (currentPage s) (zoom s) (f (edits s)) (toasts s).
Definition setToasts (f : list Toast -> list Toast) (s : State) : State :=
  mkState (toastId s) (docInfo s) (uploading s) (exporting s) (currentPage s) (zoom s) (edits s) (f (toasts s)).

(** [addToast]: [++toastId], then the toast is appended. The timer that
    drops the toast four seconds later fires as [dismissToast id]. *)
Definition addToast (message : jsstring) (type : ToastType) (s : State) : State :=
  let id := (toastId s + 1)%Z in
  let s' := mkState id (docInfo s) (uploading s) (exporting s) (currentPage s)
                    (zoom s) (edits s) (toasts s) in
  setToasts (fun prev => prev ++ [mkToast id message type]) s'.

Definition dismissToast (id : Z) (s : State) : State :=
  setToasts (List.filter (fun t => negb (toast_id t =? id)%Z)) s.

(** The message of a successful upload. *)
Definition uploadedMessage (info : DocumentInfo.t) : jsstring :=
  [34%N] ++ DocumentInfo.filename info ++ [34%N] ++ lit " carregado ("
    ++ Number_toString (DocumentInfo.pageCount info)
    ++ lit " p" ++ [225%N] ++ lit "gina"
    ++ (if (1 <? DocumentInfo.pageCount info)%Z then lit "s" else lit "")
    ++ lit ")".

(** The predicate of [handleAddEdit]'s [findIndex]: [e] is the element of
    the list, [edit] the incoming edit. *)
Definition sameRect (edit e : EditOperation.t) : bool :=
  (EditOperation.page e =? EditOperation.page edit)%Z
  && num_lt (Math_abs (num_sub (Rect.x0 (EditOperation.rect e)) (Rect.x0 (EditOperation.rect edit)))) 1%float
  && num_lt (Math_abs (num_sub (Rect.y0 (EditOperation.rect e)) (Rect.y0 (EditOperation.rect edit)))) 1%float.

(** The updater [handleAddEdit] hands to [setEdits]: replace if the same
    rect is already edited, append otherwise. [next[idx] = edit] on a
    copy is the list with position [idx] overwritten; [idx], found by
    [findIndex], is in range. *)
Definition addEdit (edit : EditOperation.t) (prev : list EditOperation.t)
  : list EditOperation.t :=
  let idx := findIndex (sameRect edit) prev in
  if (0 <=? idx)%Z then <[Z.to_nat idx := edit]> prev
  else prev ++ [edit].

Definition handleAddEdit (edit : EditOperation.t) (s : State) : State :=
  setEdits (addEdit edit) s.

Definition handleRemoveEdit (key : jsstring) (s : State) : State :=
  setEdits (List.filter (fun e => negb (str_eq (EditOperation.key e) key))) s.

Definition handleGoToEdit (edit : EditOperation.t) (s : State) : State :=
  setCurrentPage (fun _ => EditOperation.page edit) s.

Definition handleResetEdits (s : State) : State :=
  setEdits (fun _ => []) s.

Definition handlePrevPage (s : State) : State :=
  setCurrentPage (fun p => Z.max (p - 1) 0) s.

Definition handleNextPage (s : State) : State :=
  setCurrentPage
    (fun p => Z.min (p + 1)
                (nullish (option_map DocumentInfo.pageCount (docInfo s)) 1 - 1)%Z) s.

Definition setZoom (f : number -> number) (s : State) : State :=
  mkState (toastId s) (docInfo s) (uploading s) (exporting s) (currentPage s) (f (zoom s)) (edits s) (toasts s).

Definition handleZoomIn (s : State) : State :=
  setZoom (fun z => Math_min (num_add z 0.25%float) 4%float) s.

Definition handleZoomOut (s : State) : State :=
  setZoom (fun z => Math_max (num_sub z 0.25%float) 0.5%float) s.

(** What a handler does to the outside: the request it hands to [fetch]
    and the file it hands to the browser for download. *)
Inductive Effect : Set :=
  | Sent (r : Api.Request)
  | Download (filename : jsstring) (content : Api.Blob).

Section Handlers.

Variable DEV : bool.
Variable VITE_API_URL : option jsstring.
Variable JSON_stringify : Api.JSValue -> jsstring.

(** [handleFile]: the upload, then the session is reset. *)
Definition handleFile (fetch : Api.Request -> result (Api.Response DocumentInfo.t))
  (file : Api.File) (s : State) : State :=
  let s1 := setUploading true s in
  let s2 :=
    match Api.uploadDocument DEV VITE_API_URL fetch file with
    | Return info =>
        addToast (uploadedMessage info) success
          (setEdits (fun _ => []) (setCurrentPage (fun _ => 0%Z) (setDocInfo (Some info) s1)))
    | Throw err =>
        addToast (nullish (message_of err) (lit "Erro no upload")) error s1
    end in
  setUploading false s2.

(** [handleExport]: nothing without a document or without edits;
    otherwise one export request, and a download when it succeeds. *)
Definition handleExport {T : Type} (fetch : Api.Request -> result (Api.Response T))
  (s : State) : State * list Effect :=
  match docInfo s with
  | None => (s, [])
  | Some info =>
      if (length (edits s) =? 0)%nat then (s, [])
      else
        let s1 := setExporting true s in
        let sent := Sent (Api.exportRequest DEV VITE_API_URL JSON_stringify
                            (DocumentInfo.id info) (edits s)) in
        match Api.exportDocument DEV VITE_API_URL JSON_stringify fetch
                (DocumentInfo.id info) (edits s) with
        | Return blob =>
            (setExporting false (addToast (lit "PDF exportado com sucesso!") success s1),
             [sent; Download (lit "edited_" ++ DocumentInfo.filename info) blob])
        | Throw err =>
            (setExporting false
               (addToast (nullish (message_of err) (lit "Erro ao exportar")) error s1),
             [sent])
        end
  end.

End Handlers.

End App.

Module Toolbar.

(** [disabled={editCount === 0 || exporting}] of the export button. *)
Definition exportDisabled (editCount : nat) (exporting : bool) : bool :=
  (editCount =? 0)%nat || exporting.

(** [{editCount > 0 && ...}]: the reset button is rendered. *)
Definition resetShown (editCount : nat) : bool := (0 <? editCount)%nat.

(** [disabled={currentPage <= 0}] of the previous-page button. *)
Definition prevDisabled (currentPage : Z) : bool := (currentPage <=? 0)%Z.

(** [disabled={currentPage >= pageCount - 1}] of the next-page button. *)
Definition nextDisabled (currentPage pageCount : Z) : bool :=
  (pageCount - 1 <=? currentPage)%Z.

End Toolbar.

(* ===================================================================== *)
(** * The viewer ([components/PdfViewer.tsx]) *)
(* ===================================================================== *)

Module PdfViewer.

(** A [FontFace]: its family and its source descriptor. *)
Record FontFace : Set := mkFontFace { family : jsstring; source : jsstring }.

(** The [useState] cells of [PdfViewer] that the handlers touch, with the
  module-level [_editCounter] and the browser's [document.fonts]. *)
Record State : Type := mkState {
  editCounter : Z;
  pageText : option PageText.t;
  loadedFonts : gset jsstring;
  editingSpan : option TextSpan.t;
  editValue : jsstring;
  document_fonts : list FontFace
}.

Definition setEditCounter (v : Z) (s : State) : State :=
  mkState v (pageText s) (loadedFonts s) (editingSpan s) (editValue s) (document_fonts s).
Definition setLoadedFonts (f : gset jsstring -> gset jsstring) (s : State) : State :=
  mkState (editCounter s) (pageText s) (f (loadedFonts s)) (editingSpan s) (editValue s) (document_fonts s).
Definition setEditingSpan (v : option TextSpan.t) (s : State) : State :=
  mkState (editCounter s) (pageText s) (loadedFonts s) v (editValue s) (document_fonts s).
Definition setEditValue (v : jsstring) (s : State) : State :=
  mkState (editCounter s) (pageText s) (loadedFonts s) (editingSpan s) v (document_fonts s).
Definition document_fonts_add (f : FontFace) (s : State) : State :=
  mkState (editCounter s) (pageText s) (loadedFonts s) (editingSpan s) (editValue s) (document_fonts s ++ [f]).

(** [nextEditKey]: [`edit-${++_editCounter}`]. *)
Definition nextEditKey (s : State) : jsstring * State :=
  let n := (editCounter s + 1)%Z in
  (lit "edit-" ++ Number_toString n, setEditCounter n s).

(** ** Computations of the viewer that may throw *)

Definition M (A : Type) : Type := State -> result A * State.

Definition ret {A : Type} (a : A) : M A := fun s => (Return a, s).

Definition bind {A B : Type} (m : M A) (k : A -> M B) : M B :=
  fun s =>
    match m s with
    | (Return a, s') => k a s'
    | (Throw e, s') => (Throw e, s')
    end.

(** [await p]: the value of a settled promise, or its rejection thrown. *)
Definition await {A : Type} (p : result A) : M A := fun s => (p, s).

(** A call of a function that returns or throws. *)
Definition call {A : Type} (r : result A) : M A := fun s => (r, s).

Definition modify (f : State -> State) : M unit := fun s => (Return tt, f s).

(** [try { m } catch { h }]: what [m] did to the state before it threw
  stays done. *)
Definition try_catch {A : Type} (m h : M A) : M A :=
  fun s =>
    match m s with
    | (Return a, s') => (Return a, s')
    | (Throw _, s') => h s'
    end.

Notation "'let*' x ':=' m 'in' k" := (bind m (fun x => k))
  (at level 10, x name, m at level 100, k at level 200).

Section LoadFonts.

Variable DEV : bool.
Variable VITE_API_URL : option jsstring.
Variable encodeURIComponent : jsstring -> result jsstring.

(** The answer of the font listing endpoint. *)
Variable fetchFonts : Api.Request -> result (Api.Response (list jsstring)).

(** [await face.load()]: the loaded face, or a rejection when the font
  cannot be fetched or parsed. *)
Variable load : FontFace -> result FontFace.

(** Whether the effect's cleanup has run ([cancelled = true]) by the time
  the load of that font has settled. *)
Variable cancelled : jsstring -> bool.

Variable docId : jsstring.

(** [loadedFonts] as the closure of the effect captured it. *)
Variable captured : gset jsstring.

(** The body of [for (const name of fontNames)]. The URL is built before
    the inner [try]: when [fontFileUrl] throws, the loop is left. *)
Definition loadOne (name : jsstring) : M unit :=
  if bool_decide (name ∈ captured) then ret tt
  else
    let* url := call (Api.fontFileUrl DEV VITE_API_URL encodeURIComponent docId name) in
    try_catch
      (let face := mkFontFace name (lit "url(" ++ url ++ lit ")") in
       let* loaded := await (load face) in
       let* _ := modify (document_fonts_add loaded) in
       if negb (cancelled name)
       then modify (setLoadedFonts (fun prev => prev ∪ {[ name ]}))
       else ret tt)
      (* font load failed - will use fallback *)
      (ret tt).

Fixpoint forOf (fontNames : list jsstring) : M unit :=
  match fontNames with
  | [] => ret tt
  | name :: rest => let* _ := loadOne name in forOf rest
  end.

Definition loadFonts : M unit :=
  try_catch
    (let* fontNames := await (Api.listFonts DEV VITE_API_URL fetchFonts docId) in
     forOf fontNames)
    (* listing fonts failed *)
    (ret tt).

End LoadFonts.

(** The [fontFamily] of the inline editor's input. *)
Definition fontFamily (loaded : gset jsstring) (font : jsstring) : jsstring :=
  if bool_decide (font ∈ loaded)
  then [34%N] ++ font ++ [34%N] ++ lit ", sans-serif"
  else lit "sans-serif".

Section Handlers.

(** The props [edits] and [currentPage]. *)
Variable edits : list EditOperation.t.
Variable currentPage : Z.

(** [handleSpanClick]: start editing, prefilled with the text of the edit
  already made on that span, or with the span's own text. *)
Definition handleSpanClick (span : TextSpan.t) (s : State) : State :=
  let existing :=
    find (fun e =>
            (EditOperation.page e =? currentPage)%Z
            && num_lt (Math_abs (num_sub (Rect.x0 (EditOperation.rect e)) (Rect.x0 (TextSpan.rect span)))) 1%float
            && num_lt (Math_abs (num_sub (Rect.y0 (EditOperation.rect e)) (Rect.y0 (TextSpan.rect span)))) 1%float)
         edits in
  setEditValue (nullish (option_map EditOperation.new_text existing) (TextSpan.text span))
    (setEditingSpan (Some span) s).

(** [getEditForSpan]: the edit made on a span, if any. *)
Definition getEditForSpan (span : TextSpan.t) : option EditOperation.t :=
  find (fun e =>
          (EditOperation.page e =? currentPage)%Z
          && num_lt (Math_abs (num_sub (Rect.x0 (EditOperation.rect e)) (Rect.x0 (TextSpan.rect span)))) 1%float
          && num_lt (Math_abs (num_sub (Rect.y0 (EditOperation.rect e)) (Rect.y0 (TextSpan.rect span)))) 1%float)
       edits.

(** [confirmEdit]: [onAddEdit] is the parent's callback, [P] the parent's
  state. *)
Definition confirmEdit {P : Type} (onAddEdit : EditOperation.t -> P -> P)
  (s : State) (parent : P) : State * P :=
  match editingSpan s with
  | None => (s, parent)
  | Some span =>
      let trimmed := trim (editValue s) in
      if truthy trimmed && negb (str_eq trimmed (TextSpan.text span)) then
        let '(key, s1) := nextEditKey s in
        (setEditValue (lit "") (setEditingSpan None s1),
         onAddEdit
           (EditOperation.mk key currentPage (TextSpan.rect span)
              (TextSpan.text span) trimmed (TextSpan.font span)
              (TextSpan.size span) (TextSpan.color span))
           parent)
      else (setEditValue (lit "") (setEditingSpan None s), parent)
  end.

Definition cancelEdit (s : State) : State :=
  setEditValue (lit "") (setEditingSpan None s).

End Handlers.

Definition setPageText (v : option PageText.t) (s : State) : State :=
  mkState (editCounter s) v (loadedFonts s) (editingSpan s) (editValue s) (document_fonts s).

(** The page effect's [render]: [drawn] is the outcome of the PDF.js part
    ([getPage], [page.render]), which nothing catches; then, unless the
    effect was cancelled meanwhile, the text spans are fetched, and a
    failure of that request clears them. *)
Definition render (DEV : bool) (VITE_API_URL : option jsstring)
  (drawn : result unit)
  (fetchText : Api.Request -> result (Api.Response PageText.t))
  (cancelled : bool) (docId : jsstring) (currentPage : Z) : M unit :=
  let* _ := await drawn in
  if negb cancelled then
    try_catch
      (let* text := await (Api.getPageText DEV VITE_API_URL fetchText docId currentPage) in
       modify (setPageText (Some text)))
      (modify (setPageText None))
  else ret tt.

(** The spans of the text overlay: [pageText?.spans.map(...)]. *)
Definition overlaySpans (s : State) : list TextSpan.t :=
  match pageText s with
  | Some t => PageText.spans t
  | None => []
  end.

(** The component when it mounts: its [useState] cells take their initial
    values; [_editCounter] and [document.fonts] live outside of it. *)
Definition mount (s : State) : State :=
  mkState (editCounter s) None ∅ None (lit "") (document_fonts s).

End PdfViewer.

(* ===================================================================== *)
(** * The upload area and the edit panel *)
(* ===================================================================== *)

Module UploadArea.

(** [onDrop]: the first accepted file, if any, goes to [onFile]. *)
Definition onDrop {P : Type} (onFile : Api.File -> P -> P)
  (accepted : list Api.File) (parent : P) : P :=
  match accepted with
  | [] => parent
  | file :: _ => onFile file parent
  end.

End UploadArea.

Module EditPanel.

(** The React keys of the rows: [key={edit.key}]. *)
Definition rowKeys (edits : list EditOperation.t) : list jsstring :=
  List.map EditOperation.key edits.

(** The click on a row's remove button: [onRemove(edit.key)]. *)
Definition removeClicked {P : Type} (onRemove : jsstring -> P -> P)
  (edit : EditOperation.t) (parent : P) : P :=
  onRemove (EditOperation.key edit) parent.

End EditPanel.

(* ===================================================================== *)
(** * Notions of the specification *)
(* ===================================================================== *)

Module Spec.

(** The initial state of [App]: the arguments of its [useState] calls. *)
Definition initial : App.State :=
  App.mkState 0 None false false 0 1.5%float [] [].

(** A sequence of edit additions, applied in order. *)
Definition addAll (es : list EditOperation.t) (s : App.State) : App.State :=
  fold_left (fun st e => App.handleAddEdit e st) es s.

(** Two edits are within the tolerance of one another: same page, [x0]
  and [y0] each less than one point apart. This is the comparison of
  [handleAddEdit], which is strict. *)
Definition withinEps (a b : EditOperation.t) : bool := App.sameRect a b.

(** The edit list behaves as a mapping keyed by the geometric key: no two
  positions hold edits within the tolerance of one another. *)
Definition keyedMapping (l : list EditOperation.t) : Prop :=
  forall i j a b, i <> j -> l !! i = Some a -> l !! j = Some b ->
                  withinEps a b = false.

(** The tolerance comparison is transitive on the edits of [es]. *)
Definition transitiveOn (es : list EditOperation.t) : Prop :=
  forall a b c, a ∈ es -> b ∈ es -> c ∈ es ->
                withinEps a b = true -> withinEps b c = true ->
                withinEps a c = true.

(** The order of last replacement, in the specification's words: an edit
  that replaces another leaves the replaced one's place and becomes the
  last of the mapping. *)
Definition addLastReplaced (edit : EditOperation.t) (prev : list EditOperation.t)
  : list EditOperation.t :=
  let idx := findIndex (App.sameRect edit) prev in
  if (0 <=? idx)%Z then delete (Z.to_nat idx) prev ++ [edit]
  else prev ++ [edit].

Definition lastReplacedOrder (es : list EditOperation.t) : list EditOperation.t :=
  fold_left (fun l e => addLastReplaced e l) es [].

(** An edit under another client-side key. *)
Definition withKey (k : jsstring) (e : EditOperation.t) : EditOperation.t :=
  EditOperation.mk k (EditOperation.page e) (EditOperation.rect e)
                   (EditOperation.original_text e) (EditOperation.new_text e)
                   (EditOperation.font e) (EditOperation.font_size e)
                   (EditOperation.color e).

(** The [FontFace] that [loadFonts] builds for a font name, once the URL
    of its file is built. *)
Definition faceOf (name url : jsstring) : PdfViewer.FontFace :=
  PdfViewer.mkFontFace name (lit "url(" ++ url ++ lit ")").

(** The names of the properties of an export entry, in order. *)
Definition entryFields : list jsstring :=
  [lit "page"; lit "rect"; lit "original_text"; lit "new_text"; lit "font";
   lit "font_size"; lit "color"].

(** ** Sessions

    A session is the state of the viewer together with the state of the
    application. An event of the user interface, or the completion of an
    effect, fires one handler of the source, which runs to its end before
    the next event. An event is enabled when the element that raises it is
    rendered and not disabled. *)

Definition Session : Type := PdfViewer.State * App.State.

Definition viewer0 : PdfViewer.State :=
  PdfViewer.mkState 0 None ∅ None (lit "") [].

Definition session0 : Session := (viewer0, initial).

Inductive Event : Type :=
| Drop (fetch : Api.Request -> result (Api.Response DocumentInfo.t))
       (accepted : list Api.File)
| DismissToast (id : Z)
| ZoomIn
| ZoomOut
| PrevPage
| NextPage
| Export (fetch : Api.Request -> result (Api.Response unit))
| ResetEdits
| RemoveEdit (edit : EditOperation.t)
| GoToEdit (edit : EditOperation.t)
| ClickSpan (span : TextSpan.t)
| TypeText (value : jsstring)
| ConfirmEdit
| CancelEdit
| FontsEffect (fetchFonts : Api.Request -> result (Api.Response (list jsstring)))
              (load : PdfViewer.FontFace -> result PdfViewer.FontFace)
              (cancelled : jsstring -> bool) (captured : gset jsstring)
| PageEffect (drawn : result unit)
             (fetchText : Api.Request -> result (Api.Response PageText.t))
             (cancelled : bool).

(** The upload area is rendered while there is no document, the editor
    (toolbar, viewer, edit panel) once there is one; toasts always. *)
Definition enabled (ev : Event) (s : Session) : Prop :=
  match ev with
  | Drop _ _ => App.docInfo (snd s) = None
  | DismissToast _ => True
  | ev =>
      match App.docInfo (snd s) with
      | None => False
      | Some d =>
          match ev with
          | PrevPage => Toolbar.prevDisabled (App.currentPage (snd s)) = false
          | NextPage =>
              Toolbar.nextDisabled (App.currentPage (snd s))
                                   (DocumentInfo.pageCount d) = false
          | Export _ =>
              Toolbar.exportDisabled (length (App.edits (snd s)))
                                     (App.exporting (snd s)) = false
          | ResetEdits => Toolbar.resetShown (length (App.edits (snd s))) = true
          | RemoveEdit e => e ∈ App.edits (snd s)
          | GoToEdit e => e ∈ App.edits (snd s)
          | ClickSpan span => span ∈ PdfViewer.overlaySpans (fst s)
          | TypeText _ | ConfirmEdit | CancelEdit =>
              PdfViewer.editingSpan (fst s) <> None
          | _ => True
          end
      end
  end.

Section Sessions.

Variable DEV : bool.
Variable VITE_API_URL : option jsstring.
Variable JSON_stringify : Api.JSValue -> jsstring.
Variable encodeURIComponent : jsstring -> result jsstring.

(** The handler an event fires. The viewer mounts when a document
    arrives. *)
Definition fire (ev : Event) (s : Session) : Session :=
  let '(v, a) := s in
  match ev with
  | Drop fetch accepted =>
      let a' := UploadArea.onDrop (App.handleFile DEV VITE_API_URL fetch) accepted a in
      (match App.docInfo a' with Some _ => PdfViewer.mount v | None => v end, a')
  | DismissToast id => (v, App.dismissToast id a)
  | ZoomIn => (v, App.handleZoomIn a)
  | ZoomOut => (v, App.handleZoomOut a)
  | PrevPage => (v, App.handlePrevPage a)
  | NextPage => (v, App.handleNextPage a)
  | Export fetch =>
      (v, fst (App.handleExport DEV VITE_API_URL JSON_stringify fetch a))
  | ResetEdits => (v, App.handleResetEdits a)
  | RemoveEdit e => (v, EditPanel.removeClicked App.handleRemoveEdit e a)
  | GoToEdit e => (v, App.handleGoToEdit e a)
  | ClickSpan span =>
      (PdfViewer.handleSpanClick (App.edits a) (App.currentPage a) span v, a)
  | TypeText value => (PdfViewer.setEditValue value v, a)
  | ConfirmEdit => PdfViewer.confirmEdit (App.currentPage a) App.handleAddEdit v a
  | CancelEdit => (PdfViewer.cancelEdit v, a)
  | FontsEffect fetchFonts load cancelled captured =>
      match App.docInfo a with
      | Some d =>
          (snd (PdfViewer.loadFonts DEV VITE_API_URL encodeURIComponent fetchFonts
                  load cancelled (DocumentInfo.id d) captured v), a)
      | None => (v, a)
      end
  | PageEffect drawn fetchText cancelled =>
      match App.docInfo a with
      | Some d =>
          (snd (PdfViewer.render DEV VITE_API_URL drawn fetchText cancelled
                  (DocumentInfo.id d) (App.currentPage a) v), a)
      | None => (v, a)
      end
  end.

Fixpoint run (evs : list Event) (s : Session) : Session :=
  match evs with
  | [] => s
  | ev :: rest => run rest (fire ev s)
  end.

(** Every event of the sequence is enabled when its turn comes. *)
Fixpoint admissible (evs : list Event) (s : Session) : Prop :=
  match evs with
  | [] => True
  | ev :: rest => enabled ev s /\ admissible rest (fire ev s)
  end.

End Sessions.

(** ** What holds of every session *)

(** A page index a document has; page 0 is shown even for a document
    without pages. *)
Definition validPage (d : DocumentInfo.t) (p : Z) : Prop :=
  p = 0%Z \/ (0 <= p < DocumentInfo.pageCount d)%Z.

Definition pagesValid (a : App.State) : Prop :=
  match App.docInfo a with
  | None => App.edits a = [] /\ App.currentPage a = 0%Z
  | Some d =>
      validPage d (App.currentPage a)
      /\ Forall (fun e => validPage d (EditOperation.page e)) (App.edits a)
  end.

(** Every key is [edit-n] for an [n] the counter has passed, and no two
    rows of the edit panel have the same key. *)
Definition keysFresh (s : Session) : Prop :=
  (0 <= PdfViewer.editCounter (fst s))%Z
  /\ NoDup (EditPanel.rowKeys (App.edits (snd s)))
  /\ Forall (fun e => exists n, (1 <= n <= PdfViewer.editCounter (fst s))%Z
                               /\ EditOperation.key e
                                  = lit "edit-" ++ Number_toString n)
            (App.edits (snd s)).

(** An edit as [confirmEdit] makes them: its new text is not empty, has
    no white space at either end and differs from the original text. *)
Definition trimmedEdit (e : EditOperation.t) : Prop :=
  EditOperation.new_text e <> []
  /\ EditOperation.new_text e <> EditOperation.original_text e
  /\ trim (EditOperation.new_text e) = EditOperation.new_text e.

Definition toastsFresh (a : App.State) : Prop :=
  NoDup (List.map App.toast_id (App.toasts a))
  /\ Forall (fun t => (App.toast_id t <= App.toastId a)%Z) (App.toasts a).

(** The zoom factors from 50% to 400% in steps of 25%. *)
Definition zoomLevels : list number :=
  [0.5; 0.75; 1; 1.25; 1.5; 1.75; 2; 2.25; 2.5; 2.75; 3; 3.25; 3.5; 3.75; 4]%float.

(** A coordinate that is neither [NaN] nor infinite. *)
Definition finite (x : number) : bool := PrimFloat.is_finite x.

(** The key counter, the page text and the inline editor are the same in
    two states of the viewer. *)
Definition sameEditor (s s' : PdfViewer.State) : Prop :=
  PdfViewer.editCounter s' = PdfViewer.editCounter s
  /\ PdfViewer.pageText s' = PdfViewer.pageText s
  /\ PdfViewer.editingSpan s' = PdfViewer.editingSpan s
  /\ PdfViewer.editValue s' = PdfViewer.editValue s.

(** The request [uploadDocument] sends for a file, and the one
    [getPageText] sends for a page. *)
Definition uploadRequest (DEV : bool) (VITE_API_URL : option jsstring)
  (file : Api.File) : Api.Request :=
  Api.mkRequest (Api.BASE DEV VITE_API_URL ++ lit "/api/documents")
                (lit "POST") [] (Api.FormBody file).

Definition pageTextRequest (DEV : bool) (VITE_API_URL : option jsstring)
  (docId : jsstring) (page : Z) : Api.Request :=
  Api.mkRequest (Api.BASE DEV VITE_API_URL ++ lit "/api/documents/" ++ docId
                   ++ lit "/pages/" ++ Number_toString page ++ lit "/text")
                (lit "GET") [] Api.NoBody.

(** The message of the [Error] that [request] throws for an answer that
    is not ok. *)
Definition apiError {T : Type} (res : Api.Response T) : jsstring :=
  lit "API " ++ Number_toString (Api.status res) ++ lit ": "
    ++ catch (Api.text res) (lit "").

(** A zoom factor that is neither below 0.5 nor above 4. *)
Definition zoomInRange (z : number) : bool :=
  negb (num_lt z 0.5%float) && negb (num_lt 4%float z).

End Spec.

(** Concrete data for the examples. *)
Module Samples.

Definition rectAt (x y : number) : Rect.t :=
  Rect.mk x y (PrimFloat.add x 250%float) (PrimFloat.add y 18%float).

Definition editAt (key : string) (page : Z) (x y : number) (new_text : string)
  : EditOperation.t :=
  EditOperation.mk (lit key) page (rectAt x y) (lit "Hello World") (lit new_text)
                   (lit "Roboto-Regular") 11%float (lit "#000000").

Definition bonjour : EditOperation.t := editAt "edit-1" 0 100%float 700%float "Bonjour Monde".
Definition salut : EditOperation.t := editAt "edit-2" 0 100.25%float 700%float "Salut".
Definition other : EditOperation.t := editAt "edit-3" 0 100%float 600%float "Autre".

(** Three edits on one line, half a point apart from the next. *)
Definition left : EditOperation.t := editAt "edit-1" 0 0%float 0%float "A".
Definition right : EditOperation.t := editAt "edit-2" 0 1%float 0%float "B".
Definition middle : EditOperation.t := editAt "edit-3" 0 0.5%float 0%float "C".

(** A one-page document of 612 by 792 points, and the session right after
  its upload. *)
Definition original : Api.Blob := [37; 80; 68; 70]%N.

Definition doc : DocumentInfo.t :=
  DocumentInfo.mk (lit "doc-1") (lit "a.pdf") 1
                  [PageDimension.mk 0 612%float 792%float].

Definition loaded : App.State :=
  App.mkState 1 (Some doc) false false 0 1.5%float []
              [App.mkToast 1 (App.uploadedMessage doc) App.success].

(** Servers: one that answers every request with status 200 and the
  document, one that answers 500 with a message. *)
Definition serverOk {T : Type} (answer : result T) (r : Api.Request)
  : result (Api.Response T) :=
  Return (Api.mkResponse true 200 (Return (lit "ok")) answer (Return original)).

Definition serverDown {T : Type} (r : Api.Request) : result (Api.Response T) :=
  Return (Api.mkResponse false 500 (Return (lit "boom")) (Throw Other) (Return [])).

(** No network: [fetch] rejects. And a connection that is cut after the
    headers of an ok answer: no read of the body succeeds. *)
Definition offline {T : Type} (r : Api.Request) : result (Api.Response T) :=
  Throw (Error (lit "Failed to fetch")).

Definition serverCut {T : Type} (r : Api.Request) : result (Api.Response T) :=
  Return (Api.mkResponse true 200
            (Throw (Error (lit "network error")))
            (Throw (Error (lit "network error")))
            (Throw (Error (lit "network error")))).

(** A stand-in for [JSON.stringify], and one for [encodeURIComponent]
    that throws where the built-in does, on a lone surrogate, and leaves
    every other string as it is. *)
Definition stringify (v : Api.JSValue) : jsstring :=
  match v with
  | Api.JObject [(_, Api.JArray items)] =>
      lit "{edits:" ++ Number_toString (Z.of_nat (length items)) ++ lit "}"
  | _ => lit "null"
  end.

Fixpoint wellFormed (s : jsstring) : bool :=
  match s with
  | [] => true
  | c :: s' =>
      if (55296 <=? c)%N && (c <=? 56319)%N then
        match s' with
        | d :: s'' => (56320 <=? d)%N && (d <=? 57343)%N && wellFormed s''
        | [] => false
        end
      else if (56320 <=? c)%N && (c <=? 57343)%N then false
      else wellFormed s'
  end.

Definition encode (s : jsstring) : result jsstring :=
  if wellFormed s then Return s else Throw (Error (lit "URI malformed")).

(** A font name that is one high surrogate, with no low surrogate after
    it. *)
Definition unpaired : jsstring := [55357%N].

(** A span of the page, and the viewer while that span is being edited. *)
Definition span : TextSpan.t :=
  TextSpan.mk (lit "Hello World") (lit "Roboto-Regular") 11%float
              (lit "#000000") (rectAt 100%float 700%float) 0.

Definition editing (value : string) : PdfViewer.State :=
  PdfViewer.mkState 0 None ∅ (Some span) (lit value) [].

Definition idle : PdfViewer.State :=
  PdfViewer.mkState 0 None ∅ None (lit "") [].

(** Font loading: "Roboto-Regular" loads, every other font fails. *)
Definition loadRoboto (f : PdfViewer.FontFace) : result PdfViewer.FontFace :=
  if str_eq (PdfViewer.family f) (lit "Roboto-Regular") then Return f
  else Throw (Error (lit "NetworkError")).

Definition neverCancelled (name : jsstring) : bool := false.

Definition alwaysCancelled (name : jsstring) : bool := true.

(** A three-page document, the text of its first page, and a session:
    upload, the page arrives, the span is clicked, edited and confirmed,
    then the user moves on and exports. *)
Definition book : DocumentInfo.t :=
  DocumentInfo.mk (lit "doc-2") (lit "book.pdf") 3
                  [PageDimension.mk 0 612%float 792%float;
                   PageDimension.mk 1 612%float 792%float;
                   PageDimension.mk 2 612%float 792%float].

Definition firstPage : PageText.t :=
  PageText.mk 0 612%float 792%float [span].

Definition editSession : list Spec.Event :=
  [ Spec.Drop (serverOk (Return book)) [Api.mkFile (lit "book.pdf") original];
    Spec.PageEffect (Return tt) (serverOk (Return firstPage)) false;
    Spec.FontsEffect (serverOk (Return [lit "Foo-Bold"; lit "Roboto-Regular"]))
                     loadRoboto neverCancelled ∅;
    Spec.ClickSpan span;
    Spec.TypeText (lit " Bonjour Monde  ");
    Spec.ConfirmEdit;
    Spec.ClickSpan span;
    Spec.TypeText (lit "Salut");
    Spec.ConfirmEdit;
    Spec.ZoomIn;
    Spec.NextPage;
    Spec.Export serverDown;
    Spec.DismissToast 2 ].

Definition afterEditSession : Spec.Session :=
  Spec.run true None stringify encode editSession Spec.session0.

End Samples.

(* ===================================================================== *)
(** * Lemmas on the built-ins *)
(* ===================================================================== *)

Section FindIndex.

Context {A : Type} (p : A -> bool).

Lemma findIndex_ge_m1 (l : list A) : (-1 <= findIndex p l)%Z.
Proof.
  induction l as [|x l IH]; simpl; [lia|].
  destruct (p x); [lia|].
  destruct (0 <=? findIndex p l)%Z eqn:E; lia.
Qed.

(** When [findIndex] answers [-1], no element satisfies the predicate. *)
Lemma findIndex_none (l : list A) :
  (findIndex p l < 0)%Z -> forall x, x ∈ l -> p x = false.
Proof.
  induction l as [|y l IH]; simpl; intros Hneg x Hx.
  - inversion Hx.
  - destruct (p y) eqn:Hy; [lia|].
    destruct (0 <=? findIndex p l)%Z eqn:E.
    + apply Z.leb_le in E. lia.
    + apply Z.leb_gt in E.
      apply elem_of_cons in Hx as [->|Hx]; [assumption|].
      now apply IH.
Qed.

(** When it answers an index, that index is the first whose element
  satisfies the predicate. *)
Lemma findIndex_some (l : list A) :
  (0 <= findIndex p l)%Z ->
  exists i x, findIndex p l = Z.of_nat i /\ l !! i = Some x /\ p x = true
              /\ forall j y, j < i -> l !! j = Some y -> p y = false.
Proof.
  induction l as [|y l IH]; simpl; intros Hpos; [lia|].
  destruct (p y) eqn:Hy.
  - exists 0, y. repeat split; try assumption. intros j z Hj. lia.
  - destruct (0 <=? findIndex p l)%Z eqn:E; [|lia].
    apply Z.leb_le in E. destruct (IH E) as (i & x & Hi & Hl & Hp & Hfirst).
    exists (S i), x. repeat split; try assumption.
    + lia.
    + intros [|j] z Hj Hz; simpl in Hz.
      * congruence.
      * apply (Hfirst j); [lia|assumption].
Qed.

Lemma findIndex_found (l : list A) (x : A) :
  x ∈ l -> p x = true -> (0 <= findIndex p l)%Z.
Proof.
  intros Hx Hp.
  destruct (Z.le_gt_cases 0 (findIndex p l)) as [H|H]; [assumption|].
  rewrite (findIndex_none l H x Hx) in Hp. discriminate.
Qed.

(** [find] and [findIndex] look for the same element. *)
Lemma find_some (l : list A) (x : A) :
  find p l = Some x -> x ∈ l /\ p x = true.
Proof.
  induction l as [|y l IH]; simpl; [discriminate|].
  destruct (p y) eqn:Hy.
  - intros [= ->]. split; [left|assumption].
  - intros H. destruct (IH H). split; [now right|assumption].
Qed.

Lemma find_none (l : list A) :
  find p l = None -> forall x, x ∈ l -> p x = false.
Proof.
  induction l as [|y l IH]; simpl; intros H x Hx.
  - inversion Hx.
  - destruct (p y) eqn:Hy; [discriminate|].
    apply elem_of_cons in Hx as [->|Hx]; [assumption|now apply IH].
Qed.

Lemma find_is_some (l : list A) (x : A) :
  x ∈ l -> p x = true -> exists y, find p l = Some y.
Proof.
  intros Hx Hp. destruct (find p l) as [y|] eqn:E; [now exists y|].
  rewrite (find_none l E x Hx) in Hp. discriminate.
Qed.

End FindIndex.

(** ** Floats: the absolute difference is symmetric *)

Lemma SFabs_binary_round_sign prec emax s m e :
  SFabs (binary_round prec emax s m e)
  = SFabs (binary_round prec emax (negb s) m e).
Proof.
  unfold binary_round.
  destruct (shl_align m e _) as [mz ez].
  unfold binary_round_aux.
  destruct (shr_fexp prec emax (Z.pos mz) ez loc_Exact) as [mrs' e'].
  destruct (shr_fexp prec emax _ e' loc_Exact) as [mrs'' e''].
  destruct (shr_m mrs''); try reflexivity.
  destruct (Z.leb e'' (emax - prec)); reflexivity.
Qed.

Lemma SFabs_SFsub_comm prec emax x y :
  SFabs (SFsub prec emax x y) = SFabs (SFsub prec emax y x).
Proof.
  destruct x as [sx|sx| |sx mx ex], y as [sy|sy| |sy my ey]; simpl;
    try reflexivity;
    try (destruct sx, sy; reflexivity).
  rewrite (Z.min_comm ey ex).
  set (a := cond_Zopp sx _). set (b := cond_Zopp sy _).
  replace (b - a)%Z with (- (a - b))%Z by lia.
  destruct (a - b)%Z as [|q|q]; simpl; try reflexivity.
  - apply (SFabs_binary_round_sign prec emax false).
  - apply (SFabs_binary_round_sign prec emax true).
Qed.

Lemma Math_abs_minus_comm (a b : number) :
  Math_abs (num_sub a b) = Math_abs (num_sub b a).
Proof.
  unfold Math_abs, num_sub.
  apply Prim2SF_inj. rewrite !abs_spec, !sub_spec. apply SFabs_SFsub_comm.
Qed.

Lemma sameRect_comm (a b : EditOperation.t) :
  App.sameRect a b = App.sameRect b a.
Proof.
  unfold App.sameRect.
  rewrite (Z.eqb_sym (EditOperation.page b)).
  now rewrite (Math_abs_minus_comm (Rect.x0 (EditOperation.rect b))),
              (Math_abs_minus_comm (Rect.y0 (EditOperation.rect b))).
Qed.

(** ** [addEdit] by cases *)

Lemma addEdit_append (edit : EditOperation.t) (prev : list EditOperation.t) :
  (forall e, e ∈ prev -> App.sameRect edit e = false) ->
  App.addEdit edit prev = prev ++ [edit].
Proof.
  intros Hnone. unfold App.addEdit.
  destruct (0 <=? findIndex (App.sameRect edit) prev)%Z eqn:E; [|reflexivity].
  apply Z.leb_le in E.
  destruct (findIndex_some _ _ E) as (i & x & _ & Hl & Hp & _).
  rewrite (Hnone x) in Hp; [discriminate|].
  eapply list_elem_of_lookup_2; eassumption.
Qed.

Lemma addEdit_replace (edit : EditOperation.t) (prev : list EditOperation.t) :
  (exists e, e ∈ prev /\ App.sameRect edit e = true) ->
  exists i old,
    prev !! i = Some old /\ App.sameRect edit old = true
    /\ (forall j e, j < i -> prev !! j = Some e -> App.sameRect edit e = false)
    /\ App.addEdit edit prev = <[i := edit]> prev.
Proof.
  intros (e & He & Hp).
  pose proof (findIndex_found _ _ _ He Hp) as Hpos.
  destruct (findIndex_some _ _ Hpos) as (i & old & Hi & Hl & Hold & Hfirst).
  exists i, old. repeat split; try assumption.
  unfold App.addEdit. rewrite Hi.
  destruct (0 <=? Z.of_nat i)%Z eqn:E; [|apply Z.leb_gt in E; lia].
  now rewrite Nat2Z.id.
Qed.

Lemma addEdit_cases (edit : EditOperation.t) (prev : list EditOperation.t) :
  (App.addEdit edit prev = prev ++ [edit]
   /\ forall e, e ∈ prev -> App.sameRect edit e = false)
  \/ (exists i old,
        prev !! i = Some old /\ App.sameRect edit old = true
        /\ (forall j e, j < i -> prev !! j = Some e -> App.sameRect edit e = false)
        /\ App.addEdit edit prev = <[i := edit]> prev).
Proof.
  destruct (Z.le_gt_cases 0 (findIndex (App.sameRect edit) prev)) as [H|H].
  - right. destruct (findIndex_some _ _ H) as (i & old & Hi & Hl & Hold & Hfirst).
    apply addEdit_replace. exists old. split; [|assumption].
    eapply list_elem_of_lookup_2; eassumption.
  - left. pose proof (findIndex_none _ _ H) as Hnone.
    split; [|assumption]. now apply addEdit_append.
Qed.

Lemma edits_handleAddEdit (edit : EditOperation.t) (s : App.State) :
  App.edits (App.handleAddEdit edit s) = App.addEdit edit (App.edits s).
Proof. reflexivity. Qed.

Lemma edits_addAll (es : list EditOperation.t) (s : App.State) :
  App.edits (Spec.addAll es s)
  = fold_left (fun l e => App.addEdit e l) es (App.edits s).
Proof.
  revert s. induction es as [|e es IH]; intros s; simpl; [reflexivity|].
  unfold Spec.addAll in IH. now rewrite IH, edits_handleAddEdit.
Qed.

(* ===================================================================== *)
(** * Replace, not duplicate *)
(* ===================================================================== *)

(** C1, as the code has it. When the list already holds an edit within the
  tolerance of the incoming one (same page, [x0] and [y0] each less than
  one point apart), [handleAddEdit] overwrites the first such edit, in
  the order of the list, with the incoming one; the length of the list
  does not change and every other position, also one that holds another
  edit within the tolerance, keeps what it held. When the list holds
  none, the incoming edit is appended. So an edit submitted right after
  one within its tolerance never lengthens the list and is in it; and
  two such edits submitted one after the other to an empty list leave
  one edit, the second, with its text. *)
Theorem handleAddEdit_replace_not_duplicate
  (edit : EditOperation.t) (s : App.State) :
  ((exists e, e ∈ App.edits s /\ Spec.withinEps edit e = true) ->
   exists i old,
     App.edits s !! i = Some old /\ Spec.withinEps edit old = true
     /\ (forall j e, j < i -> App.edits s !! j = Some e ->
                     Spec.withinEps edit e = false)
     /\ App.edits (App.handleAddEdit edit s) = <[i := edit]> (App.edits s)
     /\ App.edits (App.handleAddEdit edit s) !! i = Some edit
     /\ (forall j, j <> i ->
                   App.edits (App.handleAddEdit edit s) !! j = App.edits s !! j)
     /\ length (App.edits (App.handleAddEdit edit s)) = length (App.edits s))
  /\ ((forall e, e ∈ App.edits s -> Spec.withinEps edit e = false) ->
      App.edits (App.handleAddEdit edit s) = App.edits s ++ [edit])
  /\ (forall first,
        Spec.withinEps edit first = true ->
        length (App.edits (App.handleAddEdit edit (App.handleAddEdit first s)))
        = length (App.edits (App.handleAddEdit first s))
        /\ edit ∈ App.edits (App.handleAddEdit edit (App.handleAddEdit first s)))
  /\ (forall first,
        App.edits s = [] -> Spec.withinEps edit first = true ->
        App.edits (App.handleAddEdit edit (App.handleAddEdit first s)) = [edit]
        /\ List.map EditOperation.new_text
             (App.edits (App.handleAddEdit edit (App.handleAddEdit first s)))
           = [EditOperation.new_text edit]).
Proof.
  assert (Hreplace : forall ed prev,
             (exists e, e ∈ prev /\ App.sameRect ed e = true) ->
             exists i old,
               prev !! i = Some old /\ App.sameRect ed old = true
               /\ (forall j e, j < i -> prev !! j = Some e -> App.sameRect ed e = false)
               /\ App.addEdit ed prev = <[i := ed]> prev
               /\ App.addEdit ed prev !! i = Some ed
               /\ (forall j, j <> i -> App.addEdit ed prev !! j = prev !! j)
               /\ length (App.addEdit ed prev) = length prev).
  { intros ed prev Hex.
    destruct (addEdit_replace _ _ Hex) as (i & old & Hl & Hold & Hfirst & Heq).
    exists i, old. rewrite Heq.
    split; [assumption|]. split; [assumption|]. split; [assumption|].
    split; [reflexivity|]. split; [|split].
    - apply list_lookup_insert_eq. eapply lookup_lt_Some; eassumption.
    - intros j Hj. apply list_lookup_insert_ne. congruence.
    - apply length_insert. }
  rewrite edits_handleAddEdit. unfold Spec.withinEps. split; [|split; [|split]].
  - apply Hreplace.
  - apply addEdit_append.
  - intros first Hclose. rewrite !edits_handleAddEdit.
    assert (Hin : first ∈ App.addEdit first (App.edits s)).
    { destruct (addEdit_cases first (App.edits s))
        as [[-> _]|(i & old & Hl & _ & _ & ->)].
      - apply elem_of_app. right. left.
      - apply (list_elem_of_lookup_2 _ i).
        apply list_lookup_insert_eq. eapply lookup_lt_Some; eassumption. }
    destruct (Hreplace edit (App.addEdit first (App.edits s)))
      as (i & old & _ & _ & _ & _ & Hi & _ & Hlen); [now exists first|].
    split; [assumption|]. eapply list_elem_of_lookup_2; eassumption.
  - intros first Hempty Hclose.
    assert (Hboth : App.edits (App.handleAddEdit edit (App.handleAddEdit first s))
                    = [edit]).
    { rewrite !edits_handleAddEdit, Hempty.
      change (App.addEdit first []) with [first].
      unfold App.addEdit. simpl. rewrite Hclose. reflexivity. }
    rewrite Hboth. split; reflexivity.
Qed.

(** The scenario of the specification: "Bonjour Monde", then "Salut" on
  the same rect a quarter of a point off, then an edit on another line. *)
Lemma handleAddEdit_replace_not_duplicate_witness :
  (exists i old,
     App.edits (App.handleAddEdit Samples.bonjour Spec.initial) !! i = Some old
     /\ Spec.withinEps Samples.salut old = true
     /\ (forall j e, j < i ->
           App.edits (App.handleAddEdit Samples.bonjour Spec.initial) !! j = Some e ->
           Spec.withinEps Samples.salut e = false)
     /\ App.edits (App.handleAddEdit Samples.salut
                     (App.handleAddEdit Samples.bonjour Spec.initial))
        = <[i := Samples.salut]>
            (App.edits (App.handleAddEdit Samples.bonjour Spec.initial))
     /\ App.edits (App.handleAddEdit Samples.salut
                     (App.handleAddEdit Samples.bonjour Spec.initial)) !! i
        = Some Samples.salut
     /\ (forall j, j <> i ->
           App.edits (App.handleAddEdit Samples.salut
                        (App.handleAddEdit Samples.bonjour Spec.initial)) !! j
           = App.edits (App.handleAddEdit Samples.bonjour Spec.initial) !! j)
     /\ length (App.edits (App.handleAddEdit Samples.salut
                             (App.handleAddEdit Samples.bonjour Spec.initial)))
        = length (App.edits (App.handleAddEdit Samples.bonjour Spec.initial)))
  /\ App.edits (App.handleAddEdit Samples.other
                  (App.handleAddEdit Samples.bonjour Spec.initial))
     = [Samples.bonjour; Samples.other]
  /\ (length (App.edits (App.handleAddEdit Samples.middle
                            (App.handleAddEdit Samples.left
                               (App.handleAddEdit Samples.right Spec.initial))))
      = length (App.edits (App.handleAddEdit Samples.left
                             (App.handleAddEdit Samples.right Spec.initial)))
      /\ Samples.middle
           ∈ App.edits (App.handleAddEdit Samples.middle
                          (App.handleAddEdit Samples.left
                             (App.handleAddEdit Samples.right Spec.initial))))
  /\ List.map EditOperation.new_text
       (App.edits (App.handleAddEdit Samples.salut
                     (App.handleAddEdit Samples.bonjour Spec.initial)))
     = [lit "Salut"].
Proof.
  split; [|split; [|split]].
  - apply (handleAddEdit_replace_not_duplicate Samples.salut
             (App.handleAddEdit Samples.bonjour Spec.initial)).
    exists Samples.bonjour. split; [left|reflexivity].
  - apply (handleAddEdit_replace_not_duplicate Samples.other
             (App.handleAddEdit Samples.bonjour Spec.initial)).
    intros e He. apply list_elem_of_singleton in He as ->. reflexivity.
  - apply (proj1 (proj2 (proj2 (handleAddEdit_replace_not_duplicate Samples.middle
                                  (App.handleAddEdit Samples.right Spec.initial))))
             Samples.left).
    reflexivity.
  - apply (proj2 (proj2 (proj2 (handleAddEdit_replace_not_duplicate Samples.salut
                                  Spec.initial)))
             Samples.bonjour); reflexivity.
Defined.

(** C1, as stated, fails: the list holds two edits a full point apart,
  and the incoming edit is half a point from each. It overwrites the
  first; the second, which is within the tolerance of it too, is not
  replaced and stays in the list beside it. *)
Lemma handleAddEdit_second_match_stays :
  App.edits (Spec.addAll [Samples.right; Samples.left] Spec.initial)
  = [Samples.right; Samples.left]
  /\ Spec.withinEps Samples.middle Samples.right = true
  /\ Spec.withinEps Samples.middle Samples.left = true
  /\ App.edits (App.handleAddEdit Samples.middle
                  (Spec.addAll [Samples.right; Samples.left] Spec.initial))
     = [Samples.middle; Samples.left]
  /\ Samples.left
       ∈ App.edits (App.handleAddEdit Samples.middle
                      (Spec.addAll [Samples.right; Samples.left] Spec.initial)).
Proof.
  split; [reflexivity|]. split; [reflexivity|]. split; [reflexivity|].
  split; [reflexivity|]. right. left.
Qed.

(* ===================================================================== *)
(** * The edit list as a mapping *)
(* ===================================================================== *)

(** One addition keeps the list a keyed mapping, as long as the tolerance
  comparison is transitive on the edits in play. *)
Lemma addEdit_keyedMapping (es : list EditOperation.t)
  (edit : EditOperation.t) (prev : list EditOperation.t) :
  Spec.transitiveOn es -> edit ∈ es -> (forall e, e ∈ prev -> e ∈ es) ->
  Spec.keyedMapping prev ->
  Spec.keyedMapping (App.addEdit edit prev)
  /\ (forall e, e ∈ App.addEdit edit prev -> e ∈ es).
Proof.
  intros Htrans Hedit Hsub Hkeyed.
  destruct (addEdit_cases edit prev)
    as [[-> Hnone] | (idx & old & Hl & Hold & _ & ->)].
  - split.
    + intros i j a b Hij Ha Hb. unfold Spec.withinEps.
      apply lookup_app_Some in Ha as [Ha|[Hi Ha]];
        apply lookup_app_Some in Hb as [Hb|[Hj Hb]].
      * exact (Hkeyed i j a b Hij Ha Hb).
      * apply list_lookup_singleton_Some in Hb as [_ <-].
        rewrite sameRect_comm. apply Hnone.
        eapply list_elem_of_lookup_2; eassumption.
      * apply list_lookup_singleton_Some in Ha as [_ <-].
        apply Hnone. eapply list_elem_of_lookup_2; eassumption.
      * apply list_lookup_singleton_Some in Ha as [Hi0 _].
        apply list_lookup_singleton_Some in Hb as [Hj0 _]. lia.
    + intros e He. apply elem_of_app in He as [He|He]; [now apply Hsub|].
      apply list_elem_of_singleton in He as ->. assumption.
  - assert (Hold_es : old ∈ es)
      by (apply Hsub; eapply list_elem_of_lookup_2; eassumption).
    split.
    + intros i j a b Hij Ha Hb.
      apply list_lookup_insert_Some in Ha as [(<- & <- & _)|[Hi Ha]];
        apply list_lookup_insert_Some in Hb as [(Hj & <- & _)|[Hj Hb]].
      * congruence.
      * destruct (Spec.withinEps edit b) eqn:E; [|reflexivity].
        assert (Hb_es : b ∈ es)
          by (apply Hsub; eapply list_elem_of_lookup_2; eassumption).
        assert (Hob : Spec.withinEps old b = true).
        { apply (Htrans old edit b); try assumption.
          unfold Spec.withinEps. now rewrite sameRect_comm. }
        rewrite (Hkeyed idx j old b Hij Hl Hb) in Hob. discriminate.
      * subst j. destruct (Spec.withinEps a edit) eqn:E; [|reflexivity].
        assert (Ha_es : a ∈ es)
          by (apply Hsub; eapply list_elem_of_lookup_2; eassumption).
        assert (Hao : Spec.withinEps a old = true)
          by (apply (Htrans a edit old); assumption).
        rewrite (Hkeyed i idx a old Hij Ha Hl) in Hao. discriminate.
      * exact (Hkeyed i j a b Hij Ha Hb).
    + intros e He. apply list_elem_of_lookup_1 in He as [k Hk].
      apply list_lookup_insert_Some in Hk as [(_ & <- & _)|[_ Hk]];
        [assumption|].
      apply Hsub. eapply list_elem_of_lookup_2; eassumption.
Qed.

Lemma fold_addEdit_keyedMapping (es seq : list EditOperation.t)
  (l : list EditOperation.t) :
  Spec.transitiveOn es -> (forall e, e ∈ seq -> e ∈ es) ->
  (forall e, e ∈ l -> e ∈ es) -> Spec.keyedMapping l ->
  Spec.keyedMapping (fold_left (fun l e => App.addEdit e l) seq l).
Proof.
  intros Htrans. revert l.
  induction seq as [|e seq IH]; intros l Hseq Hl Hkeyed; simpl; [assumption|].
  destruct (addEdit_keyedMapping es e l Htrans) as [Hk Hs];
    try assumption; [apply Hseq; left|].
  apply IH; try assumption.
  intros x Hx. apply Hseq. now right.
Qed.

(** C2, as the code has it. Starting from the empty list, a sequence of
  additions on whose edits the tolerance comparison is transitive never
  leaves two edits within the tolerance of one another at two positions
  of the list. *)
Theorem addAll_keyedMapping (es : list EditOperation.t) (s : App.State) :
  App.edits s = [] -> Spec.transitiveOn es ->
  Spec.keyedMapping (App.edits (Spec.addAll es s)).
Proof.
  intros Hempty Htrans. rewrite edits_addAll, Hempty.
  apply (fold_addEdit_keyedMapping es); try assumption.
  - auto.
  - intros e He. inversion He.
  - intros i j a b _ Ha. rewrite lookup_nil in Ha. discriminate.
Qed.

Ltac split_elem H :=
  repeat match type of H with
    | _ ∈ _ :: _ => apply elem_of_cons in H as [->|H]
    | _ ∈ [] => apply elem_of_nil in H; destruct H
    end.

Lemma addAll_keyedMapping_witness :
  App.edits (Spec.addAll [Samples.bonjour; Samples.other; Samples.salut] Spec.initial)
  = [Samples.salut; Samples.other]
  /\ Spec.keyedMapping
       (App.edits (Spec.addAll [Samples.bonjour; Samples.other; Samples.salut]
                     Spec.initial)).
Proof.
  split; [reflexivity|].
  apply (addAll_keyedMapping [Samples.bonjour; Samples.other; Samples.salut]
           Spec.initial); [reflexivity|].
  intros a b c Ha Hb Hc Hab Hbc.
  split_elem Ha; split_elem Hb; split_elem Hc;
    first [reflexivity | vm_compute in Hab; discriminate Hab
          | vm_compute in Hbc; discriminate Hbc].
Defined.

(** C2, as stated, fails: an edit half a point from two edits that are a
  full point apart replaces the first and ends up beside the second. *)
Lemma addAll_not_keyedMapping :
  App.edits (Spec.addAll [Samples.left; Samples.right; Samples.middle] Spec.initial)
  = [Samples.middle; Samples.right]
  /\ Spec.withinEps Samples.middle Samples.right = true
  /\ ~ Spec.keyedMapping
         (App.edits (Spec.addAll [Samples.left; Samples.right; Samples.middle]
                       Spec.initial)).
Proof.
  split; [reflexivity|]. split; [reflexivity|].
  intros Hkeyed.
  specialize (Hkeyed 0 1 Samples.middle Samples.right).
  assert (H : Spec.withinEps Samples.middle Samples.right = false)
    by (apply Hkeyed; [lia|reflexivity|reflexivity]).
  vm_compute in H. discriminate H.
Qed.

(* ===================================================================== *)
(** * Order under replacement *)
(* ===================================================================== *)

(** C6, as the code has it. When the incoming edit replaces an edit of the
  list, it takes the place of the first edit within the tolerance, and
  every other position holds what it held: the list is not reordered. *)
Theorem handleAddEdit_replace_in_place
  (edit : EditOperation.t) (s : App.State) :
  (exists e, e ∈ App.edits s /\ Spec.withinEps edit e = true) ->
  exists i old,
    App.edits s !! i = Some old /\ Spec.withinEps edit old = true
    /\ (forall j e, j < i -> App.edits s !! j = Some e ->
                    Spec.withinEps edit e = false)
    /\ App.edits (App.handleAddEdit edit s) !! i = Some edit
    /\ (forall j, j <> i ->
                  App.edits (App.handleAddEdit edit s) !! j = App.edits s !! j)
    /\ length (App.edits (App.handleAddEdit edit s)) = length (App.edits s).
Proof.
  intros Hex. rewrite edits_handleAddEdit.
  destruct (addEdit_replace _ _ Hex) as (i & old & Hl & Hold & Hfirst & ->).
  exists i, old. repeat split; try assumption.
  - apply list_lookup_insert_eq. eapply lookup_lt_Some; eassumption.
  - intros j Hj. apply list_lookup_insert_ne. congruence.
  - apply length_insert.
Qed.

Lemma handleAddEdit_replace_in_place_witness :
  exists i old,
    App.edits (Spec.addAll [Samples.bonjour; Samples.other] Spec.initial) !! i
    = Some old
    /\ Spec.withinEps Samples.salut old = true
    /\ (forall j e, j < i ->
          App.edits (Spec.addAll [Samples.bonjour; Samples.other] Spec.initial) !! j
          = Some e -> Spec.withinEps Samples.salut e = false)
    /\ App.edits (App.handleAddEdit Samples.salut
                    (Spec.addAll [Samples.bonjour; Samples.other] Spec.initial)) !! i
       = Some Samples.salut
    /\ (forall j, j <> i ->
          App.edits (App.handleAddEdit Samples.salut
                       (Spec.addAll [Samples.bonjour; Samples.other] Spec.initial)) !! j
          = App.edits (Spec.addAll [Samples.bonjour; Samples.other] Spec.initial) !! j)
    /\ length (App.edits (App.handleAddEdit Samples.salut
                            (Spec.addAll [Samples.bonjour; Samples.other] Spec.initial)))
       = length (App.edits (Spec.addAll [Samples.bonjour; Samples.other] Spec.initial)).
Proof.
  apply (handleAddEdit_replace_in_place Samples.salut
           (Spec.addAll [Samples.bonjour; Samples.other] Spec.initial)).
  exists Samples.bonjour. split; [left|reflexivity].
Defined.

(** C6, as stated, fails in its second half: the replacing edit stays in
  the replaced edit's place, ahead of an edit that was placed before it,
  where the order of last replacement would put it last. *)
Lemma replace_order_not_last_replaced :
  App.edits (Spec.addAll [Samples.bonjour; Samples.other; Samples.salut] Spec.initial)
  = [Samples.salut; Samples.other]
  /\ Spec.lastReplacedOrder [Samples.bonjour; Samples.other; Samples.salut]
     = [Samples.other; Samples.salut]
  /\ App.edits (Spec.addAll [Samples.bonjour; Samples.other; Samples.salut] Spec.initial)
     <> Spec.lastReplacedOrder [Samples.bonjour; Samples.other; Samples.salut].
Proof.
  split; [reflexivity|]. split; [reflexivity|].
  intros H. vm_compute in H. discriminate H.
Qed.

(* ===================================================================== *)
(** * Export *)
(* ===================================================================== *)

(** C3, as the code has it. With an empty edit list, and likewise without
  a document, [handleExport] is well-defined and does nothing: no request
  is sent, nothing is downloaded and the state is unchanged; with an
  empty edit list the toolbar's export button is disabled. With a
  document and at least one edit it sends exactly one export request, and
  hands the browser the answered bytes when a response arrives, is ok and
  its body is read; in every other case nothing is downloaded. *)
Theorem handleExport_requires_edits
  (DEV : bool) (VITE_API_URL : option jsstring)
  (JSON_stringify : Api.JSValue -> jsstring)
  (T : Type) (fetch : Api.Request -> result (Api.Response T)) (s : App.State) :
  (App.edits s = [] ->
   App.handleExport DEV VITE_API_URL JSON_stringify fetch s = (s, [])
   /\ Toolbar.exportDisabled (length (App.edits s)) (App.exporting s) = true)
  /\ (App.docInfo s = None ->
      App.handleExport DEV VITE_API_URL JSON_stringify fetch s = (s, []))
  /\ (forall info, App.docInfo s = Some info -> App.edits s <> [] ->
        snd (App.handleExport DEV VITE_API_URL JSON_stringify fetch s)
        = App.Sent (Api.exportRequest DEV VITE_API_URL JSON_stringify
                      (DocumentInfo.id info) (App.edits s))
          :: match fetch (Api.exportRequest DEV VITE_API_URL JSON_stringify
                            (DocumentInfo.id info) (App.edits s)) with
             | Return res =>
                 if Api.ok res then
                   match Api.blob res with
                   | Return bytes =>
                       [App.Download (lit "edited_" ++ DocumentInfo.filename info)
                                     bytes]
                   | Throw _ => []
                   end
                 else []
             | Throw _ => []
             end).
Proof.
  split; [|split].
  - intros Hempty. unfold App.handleExport, Toolbar.exportDisabled.
    rewrite Hempty. simpl. split; [|reflexivity].
    destruct (App.docInfo s); reflexivity.
  - intros Hnone. unfold App.handleExport. now rewrite Hnone.
  - intros info Hdoc Hedits. unfold App.handleExport. rewrite Hdoc.
    destruct (App.edits s) as [|e l] eqn:El; [congruence|]. simpl.
    unfold Api.exportDocument.
    destruct (fetch _) as [res|err]; [|reflexivity].
    destruct (Api.ok res); simpl; [|reflexivity].
    destruct (Api.blob res); reflexivity.
Qed.

Lemma handleExport_requires_edits_witness :
  (App.handleExport true None Samples.stringify
     (Samples.serverOk (Return tt)) Samples.loaded = (Samples.loaded, [])
   /\ Toolbar.exportDisabled (length (App.edits Samples.loaded))
        (App.exporting Samples.loaded) = true)
  /\ App.handleExport true None Samples.stringify (Samples.serverOk (Return tt))
       (App.handleAddEdit Samples.bonjour Spec.initial)
     = (App.handleAddEdit Samples.bonjour Spec.initial, [])
  /\ snd (App.handleExport true None Samples.stringify
            (Samples.serverOk (Return tt))
            (App.handleAddEdit Samples.bonjour Samples.loaded))
     = [App.Sent (Api.exportRequest true None Samples.stringify (lit "doc-1")
                    [Samples.bonjour]);
        App.Download (lit "edited_a.pdf") Samples.original].
Proof.
  split; [|split].
  - apply (handleExport_requires_edits true None Samples.stringify unit
             (Samples.serverOk (Return tt)) Samples.loaded).
    reflexivity.
  - apply (handleExport_requires_edits true None Samples.stringify unit
             (Samples.serverOk (Return tt))
             (App.handleAddEdit Samples.bonjour Spec.initial)).
    reflexivity.
  - apply (proj2 (proj2 (handleExport_requires_edits true None Samples.stringify
                           unit (Samples.serverOk (Return tt))
                           (App.handleAddEdit Samples.bonjour Samples.loaded)))
             Samples.doc).
    + reflexivity.
    + simpl. discriminate.
Defined.

(** C3, as stated, fails: with a document loaded and no edit, an export
  request against a server that would answer with the original document
  produces no output at all. *)
Lemma handleExport_no_edits_no_output :
  App.docInfo Samples.loaded = Some Samples.doc
  /\ length (App.edits Samples.loaded) = 0
  /\ App.handleExport true None Samples.stringify
       (Samples.serverOk (Return tt)) Samples.loaded
     = (Samples.loaded, []).
Proof. repeat split. Qed.

(** A string that includes another includes its first code unit. *)
Lemma includes_head (t s : jsstring) (c : N) :
  includes t (c :: s) -> c ∈ t.
Proof.
  intros (pre & post & ->). apply elem_of_app. right. left.
Qed.

(** C4, as the code has it. [exportDocument] returns bytes exactly when a
  response arrives, is ok and its body is read, and then returns that
  whole body. When the response is not ok it throws an [Error] whose
  message includes the status. When no response arrives, or the body of
  an ok response cannot be read, it throws what [fetch] or the read
  threw, which carries no status. A failure returns no bytes. *)
Theorem exportDocument_all_or_nothing
  (DEV : bool) (VITE_API_URL : option jsstring)
  (JSON_stringify : Api.JSValue -> jsstring)
  (T : Type) (fetch : Api.Request -> result (Api.Response T))
  (docId : jsstring) (edits : list EditOperation.t) :
  match fetch (Api.exportRequest DEV VITE_API_URL JSON_stringify docId edits) with
  | Return res =>
      if Api.ok res then
        Api.exportDocument DEV VITE_API_URL JSON_stringify fetch docId edits
        = Api.blob res
      else
        exists msg,
          Api.exportDocument DEV VITE_API_URL JSON_stringify fetch docId edits
          = Throw (Error msg)
          /\ includes msg (Number_toString (Api.status res))
  | Throw e =>
      Api.exportDocument DEV VITE_API_URL JSON_stringify fetch docId edits
      = Throw e
  end
  /\ (forall bytes,
        Api.exportDocument DEV VITE_API_URL JSON_stringify fetch docId edits
        = Return bytes
        <-> exists res,
              fetch (Api.exportRequest DEV VITE_API_URL JSON_stringify docId edits)
              = Return res
              /\ Api.ok res = true /\ Api.blob res = Return bytes).
Proof.
  unfold Api.exportDocument.
  destruct (fetch _) as [res|err].
  - destruct (Api.ok res) eqn:Hok; simpl.
    + split; [reflexivity|]. intros bytes. split.
      * intros Hb. exists res. now repeat split.
      * intros (res' & [= <-] & _ & Hb). assumption.
    + split.
      * eexists. split; [reflexivity|].
        exists (lit "Export failed ("). eexists. reflexivity.
      * intros bytes. split; [discriminate|].
        intros (res' & [= <-] & Hok' & _). congruence.
  - split; [reflexivity|]. intros bytes. split; [discriminate|].
    intros (res' & Hres & _). discriminate.
Qed.

(** On the server that answers with the document: the bytes returned are
  the body of its ok response. *)
Lemma exportDocument_all_or_nothing_witness :
  Api.exportDocument true None Samples.stringify (Samples.serverOk (Return tt))
    (lit "doc-1") [Samples.bonjour]
  = Return Samples.original
  /\ exists res,
       Samples.serverOk (Return tt)
         (Api.exportRequest true None Samples.stringify (lit "doc-1")
            [Samples.bonjour])
       = Return res
       /\ Api.ok res = true /\ Api.blob res = Return Samples.original.
Proof.
  split; [reflexivity|].
  apply (proj2 (exportDocument_all_or_nothing true None Samples.stringify unit
                  (Samples.serverOk (Return tt)) (lit "doc-1")
                  [Samples.bonjour])).
  reflexivity.
Defined.

(** The outcomes on the sample servers. *)
Lemma exportDocument_samples :
  Api.exportDocument true None Samples.stringify (Samples.serverOk (Return tt))
    (lit "doc-1") [Samples.bonjour]
  = Return Samples.original
  /\ Api.exportDocument true None Samples.stringify (@Samples.serverDown unit)
       (lit "doc-1") [Samples.bonjour]
     = Throw (Error (lit "Export failed (500): boom")).
Proof. split; reflexivity. Qed.

(** C4, as stated, fails: on an ok response whose body cannot be read no
  bytes are returned although the response is ok, and the error thrown
  is the read's, which does not include the status 200; when no response
  arrives at all, the error thrown is [fetch]'s. *)
Lemma exportDocument_ok_without_bytes :
  (exists res : Api.Response unit,
     Samples.serverCut (Api.exportRequest true None Samples.stringify
                          (lit "doc-1") [Samples.bonjour])
     = Return res
     /\ Api.ok res = true /\ Api.status res = 200%Z)
  /\ Api.exportDocument true None Samples.stringify (@Samples.serverCut unit)
       (lit "doc-1") [Samples.bonjour]
     = Throw (Error (lit "network error"))
  /\ ~ includes (lit "network error") (Number_toString 200)
  /\ Api.exportDocument true None Samples.stringify (@Samples.offline unit)
       (lit "doc-1") [Samples.bonjour]
     = Throw (Error (lit "Failed to fetch")).
Proof.
  split; [eexists; repeat split|]. split; [reflexivity|]. split; [|reflexivity].
  intros H. apply includes_head in H.
  apply list_elem_of_In in H. vm_compute in H. intuition discriminate.
Qed.

(** C5. The body of the export request is the serialization of
  [{ edits: [...] }], one entry per edit, in order; each entry has
  exactly the properties [page], [rect], [original_text], [new_text],
  [font], [font_size] and [color], with the edit's values; the
  client-side [key] is not among them, so the request does not depend on
  the keys. *)
Theorem exportRequest_body_shape
  (DEV : bool) (VITE_API_URL : option jsstring)
  (JSON_stringify : Api.JSValue -> jsstring)
  (docId : jsstring) (edits : list EditOperation.t) :
  Api.body (Api.exportRequest DEV VITE_API_URL JSON_stringify docId edits)
  = Api.TextBody (JSON_stringify (Api.exportPayload edits))
  /\ Api.exportPayload edits
     = Api.JObject
         [ (lit "edits",
            Api.JArray
              (List.map
                 (fun e =>
                    Api.JObject
                      [ (lit "page", Api.JInteger (EditOperation.page e));
                        (lit "rect", Api.Rect_object (EditOperation.rect e));
                        (lit "original_text", Api.JString (EditOperation.original_text e));
                        (lit "new_text", Api.JString (EditOperation.new_text e));
                        (lit "font", Api.JString (EditOperation.font e));
                        (lit "font_size", Api.JNumber (EditOperation.font_size e));
                        (lit "color", Api.JString (EditOperation.color e)) ])
                 edits)) ]
  /\ Forall (fun e =>
               List.map fst (Api.rest_without (lit "key") (Api.EditOperation_props e))
               = Spec.entryFields
               /\ ~ lit "key" ∈ Spec.entryFields)
            edits
  /\ (forall rekey : EditOperation.t -> jsstring,
        Api.exportRequest DEV VITE_API_URL JSON_stringify docId
          (List.map (fun e => Spec.withKey (rekey e) e) edits)
        = Api.exportRequest DEV VITE_API_URL JSON_stringify docId edits).
Proof.
  assert (Hentry : forall e,
             Api.rest_without (lit "key") (Api.EditOperation_props e)
             = [ (lit "page", Api.JInteger (EditOperation.page e));
                 (lit "rect", Api.Rect_object (EditOperation.rect e));
                 (lit "original_text", Api.JString (EditOperation.original_text e));
                 (lit "new_text", Api.JString (EditOperation.new_text e));
                 (lit "font", Api.JString (EditOperation.font e));
                 (lit "font_size", Api.JNumber (EditOperation.font_size e));
                 (lit "color", Api.JString (EditOperation.color e)) ])
    by (intros e; reflexivity).
  split; [reflexivity|]. split; [|split].
  - unfold Api.exportPayload.
    rewrite (List.map_ext _ _ (fun e => f_equal Api.JObject (Hentry e))).
    reflexivity.
  - apply Forall_forall. intros e _. rewrite Hentry. split; [reflexivity|].
    intros Hin. apply list_elem_of_In in Hin. vm_compute in Hin.
    intuition discriminate.
  - intros rekey. unfold Api.exportRequest, Api.exportPayload.
    rewrite List.map_map.
    rewrite (List.map_ext _ _ (fun e => f_equal Api.JObject (Hentry e))).
    rewrite (List.map_ext _ _
               (fun e => f_equal Api.JObject (Hentry (Spec.withKey (rekey e) e)))).
    reflexivity.
Qed.

(* ===================================================================== *)
(** * Edits and spans *)
(* ===================================================================== *)

(** C7. [getEditForSpan] is total: it answers an edit exactly when some
  edit of the list is on the current page with [x0] and [y0] each less
  than one point from the span's; the comparison is the one
  [handleAddEdit] makes for an edit on that page with the span's rect;
  and a click on a span always starts editing it, prefilled with the
  matched edit's new text, or with the span's own text when no edit
  matches. *)
Theorem getEditForSpan_matches_by_key
  (edits : list EditOperation.t) (currentPage : Z) (span : TextSpan.t)
  (s : PdfViewer.State) :
  ((exists e, PdfViewer.getEditForSpan edits currentPage span = Some e)
   <-> (exists e, e ∈ edits /\ EditOperation.page e = currentPage
          /\ num_lt (Math_abs (num_sub (Rect.x0 (EditOperation.rect e))
                                 (Rect.x0 (TextSpan.rect span)))) 1%float = true
          /\ num_lt (Math_abs (num_sub (Rect.y0 (EditOperation.rect e))
                                 (Rect.y0 (TextSpan.rect span)))) 1%float = true))
  /\ (forall key original new font size color,
        PdfViewer.getEditForSpan edits currentPage span
        = find (App.sameRect
                  (EditOperation.mk key currentPage (TextSpan.rect span)
                                    original new font size color))
               edits)
  /\ PdfViewer.editingSpan (PdfViewer.handleSpanClick edits currentPage span s)
     = Some span
  /\ PdfViewer.editValue (PdfViewer.handleSpanClick edits currentPage span s)
     = match PdfViewer.getEditForSpan edits currentPage span with
       | Some e => EditOperation.new_text e
       | None => TextSpan.text span
       end.
Proof.
  split; [|split; [|split]].
  - unfold PdfViewer.getEditForSpan. split.
    + intros [e He]. apply find_some in He as [Hin Hp].
      apply andb_true_iff in Hp as [Hp Hy].
      apply andb_true_iff in Hp as [Hp Hx].
      apply Z.eqb_eq in Hp. exists e. repeat split; assumption.
    + intros (e & Hin & Hp & Hx & Hy).
      apply (find_is_some _ edits e Hin).
      rewrite Hx, Hy. apply Z.eqb_eq in Hp. now rewrite Hp.
  - intros key original new font size color. reflexivity.
  - reflexivity.
  - unfold PdfViewer.handleSpanClick, PdfViewer.getEditForSpan. simpl.
    destruct (find _ edits); reflexivity.
Qed.

(** On the samples: the span of "Hello World" is matched by the edit made
  on it and by no edit of another line; unmatched, a click prefills the
  span's text. *)
Lemma getEditForSpan_samples :
  PdfViewer.getEditForSpan [Samples.other; Samples.salut] 0 Samples.span
  = Some Samples.salut
  /\ PdfViewer.getEditForSpan [Samples.other] 0 Samples.span = None
  /\ PdfViewer.editValue
       (PdfViewer.handleSpanClick [Samples.other] 0 Samples.span Samples.idle)
     = lit "Hello World"
  /\ PdfViewer.editValue
       (PdfViewer.handleSpanClick [Samples.other; Samples.salut] 0 Samples.span
          Samples.idle)
     = lit "Salut".
Proof. repeat split. Qed.

(* ===================================================================== *)
(** * Confirming an inline edit *)
(* ===================================================================== *)

Lemma truthy_false (t : jsstring) : truthy t = false <-> t = [].
Proof. destruct t; simpl; split; congruence. Qed.

Lemma str_eq_true (a b : jsstring) : str_eq a b = true <-> a = b.
Proof. unfold str_eq. apply bool_decide_eq_true. Qed.

(** C9. While a span is being edited, [confirmEdit] adds no edit when the
  trimmed value is empty or is the span's text: the parent's state, and
  so its edit list, is unchanged. Otherwise it hands [handleAddEdit] one
  edit with a fresh key, the current page, the span's rect, text, font,
  size and color, and the trimmed value as new text. Either way the
  inline editor closes. *)
Theorem confirmEdit_guard
  (currentPage : Z) (span : TextSpan.t) (s : PdfViewer.State)
  (app : App.State) :
  PdfViewer.editingSpan s = Some span ->
  (trim (PdfViewer.editValue s) = [] \/ trim (PdfViewer.editValue s) = TextSpan.text span ->
   snd (PdfViewer.confirmEdit currentPage App.handleAddEdit s app) = app
   /\ PdfViewer.editCounter
        (fst (PdfViewer.confirmEdit currentPage App.handleAddEdit s app))
      = PdfViewer.editCounter s)
  /\ (trim (PdfViewer.editValue s) <> [] ->
      trim (PdfViewer.editValue s) <> TextSpan.text span ->
      snd (PdfViewer.confirmEdit currentPage App.handleAddEdit s app)
      = App.handleAddEdit
          (EditOperation.mk
             (lit "edit-" ++ Number_toString (PdfViewer.editCounter s + 1))
             currentPage (TextSpan.rect span) (TextSpan.text span)
             (trim (PdfViewer.editValue s)) (TextSpan.font span)
             (TextSpan.size span) (TextSpan.color span))
          app)
  /\ PdfViewer.editingSpan
       (fst (PdfViewer.confirmEdit currentPage App.handleAddEdit s app)) = None
  /\ PdfViewer.editValue
       (fst (PdfViewer.confirmEdit currentPage App.handleAddEdit s app)) = [].
Proof.
  intros Hspan. unfold PdfViewer.confirmEdit. rewrite Hspan.
  destruct (truthy (trim (PdfViewer.editValue s))) eqn:Ht;
    [destruct (str_eq (trim (PdfViewer.editValue s)) (TextSpan.text span)) eqn:Hs|];
    simpl.
  - apply str_eq_true in Hs.
    split; [intros _; split; reflexivity|].
    split; [intros _ Hne; contradiction|].
    split; reflexivity.
  - split; [|split; [intros _ _; reflexivity|split; reflexivity]].
    intros [Heq|Heq]; exfalso.
    + apply truthy_false in Heq. congruence.
    + apply str_eq_true in Heq. congruence.
  - apply truthy_false in Ht.
    split; [intros _; split; reflexivity|].
    split; [intros Hne; contradiction|].
    split; reflexivity.
Qed.

Lemma confirmEdit_guard_witness :
  (snd (PdfViewer.confirmEdit 0 App.handleAddEdit
          (Samples.editing "  Hello World ") Samples.loaded)
   = Samples.loaded
   /\ PdfViewer.editCounter
        (fst (PdfViewer.confirmEdit 0 App.handleAddEdit
                (Samples.editing "  Hello World ") Samples.loaded))
      = 0%Z)
  /\ App.edits (snd (PdfViewer.confirmEdit 0 App.handleAddEdit
                       (Samples.editing " Bonjour Monde  ") Samples.loaded))
     = [Samples.bonjour].
Proof.
  split.
  - apply (confirmEdit_guard 0 Samples.span (Samples.editing "  Hello World ")
             Samples.loaded); [reflexivity|].
    right. reflexivity.
  - rewrite (proj1 (proj2 (confirmEdit_guard 0 Samples.span
                             (Samples.editing " Bonjour Monde  ") Samples.loaded
                             eq_refl))).
    + reflexivity.
    + vm_compute. discriminate.
    + vm_compute. discriminate.
Defined.

(* ===================================================================== *)
(** * Upload *)
(* ===================================================================== *)

(** C10. When the upload succeeds, [handleFile] installs the new document,
  sets the current page to 0 and empties the edit list, so that an
  export asked right after sends nothing; when the upload fails, the
  document, the page and the edits are what they were. *)
Theorem handleFile_resets_session
  (DEV : bool) (VITE_API_URL : option jsstring)
  (JSON_stringify : Api.JSValue -> jsstring)
  (fetch : Api.Request -> result (Api.Response DocumentInfo.t))
  (file : Api.File) (s : App.State) :
  match Api.uploadDocument DEV VITE_API_URL fetch file with
  | Return info =>
      App.docInfo (App.handleFile DEV VITE_API_URL fetch file s) = Some info
      /\ App.currentPage (App.handleFile DEV VITE_API_URL fetch file s) = 0%Z
      /\ App.edits (App.handleFile DEV VITE_API_URL fetch file s) = []
      /\ forall (T : Type) (server : Api.Request -> result (Api.Response T)),
           snd (App.handleExport DEV VITE_API_URL JSON_stringify server
                  (App.handleFile DEV VITE_API_URL fetch file s)) = []
  | Throw _ =>
      App.docInfo (App.handleFile DEV VITE_API_URL fetch file s) = App.docInfo s
      /\ App.currentPage (App.handleFile DEV VITE_API_URL fetch file s)
         = App.currentPage s
      /\ App.edits (App.handleFile DEV VITE_API_URL fetch file s) = App.edits s
  end.
Proof.
  unfold App.handleFile.
  destruct (Api.uploadDocument DEV VITE_API_URL fetch file) as [info|err]; simpl.
  - split; [reflexivity|]. split; [reflexivity|]. split; [reflexivity|].
    intros T server. reflexivity.
  - split; [reflexivity|]. split; reflexivity.
Qed.

(** On the samples: a session with an edit, then an upload that succeeds,
  and one that the server refuses. *)
Lemma handleFile_samples :
  App.edits (App.handleFile true None (Samples.serverOk (Return Samples.doc))
               (Api.mkFile (lit "a.pdf") Samples.original)
               (App.handleAddEdit Samples.bonjour Samples.loaded)) = []
  /\ App.edits (App.handleFile true None Samples.serverDown
                  (Api.mkFile (lit "a.pdf") Samples.original)
                  (App.handleAddEdit Samples.bonjour Samples.loaded))
     = [Samples.bonjour]
  /\ List.map App.toast_message
       (App.toasts (App.handleFile true None Samples.serverDown
                      (Api.mkFile (lit "a.pdf") Samples.original) Spec.initial))
     = [lit "API 500: boom"].
Proof. repeat split. Qed.

(* ===================================================================== *)
(** * Fonts *)
(* ===================================================================== *)

Section LoadFontsFacts.

Context (DEV : bool) (VITE_API_URL : option jsstring)
  (encodeURIComponent : jsstring -> result jsstring)
  (fetchFonts : Api.Request -> result (Api.Response (list jsstring)))
  (load : PdfViewer.FontFace -> result PdfViewer.FontFace)
  (cancelled : jsstring -> bool)
  (docId : jsstring) (captured : gset jsstring).

Let loadOne := PdfViewer.loadOne DEV VITE_API_URL encodeURIComponent load
  cancelled docId captured.
Let forOf := PdfViewer.forOf DEV VITE_API_URL encodeURIComponent load
  cancelled docId captured.
Let loadFonts := PdfViewer.loadFonts DEV VITE_API_URL encodeURIComponent
  fetchFonts load cancelled docId captured.


















End LoadFontsFacts.




(** On the samples: the listing names a font whose name cannot be
  encoded, then "Roboto-Regular", which loads. No error is surfaced; the
  loop is left at the first name, so "Roboto-Regular" is rendered with
  the fallback, while the same font listed before that name is loaded. *)
Lemma loadFonts_unpaired_name_samples :
  Samples.encode Samples.unpaired = Throw (Error (lit "URI malformed"))
  /\ (exists url f,
        Api.fontFileUrl true None Samples.encode (lit "doc-1")
          (lit "Roboto-Regular") = Return url
        /\ Samples.loadRoboto (Spec.faceOf (lit "Roboto-Regular") url) = Return f)
  /\ fst (PdfViewer.loadFonts true None Samples.encode
            (Samples.serverOk (Return [Samples.unpaired; lit "Roboto-Regular"]))
            Samples.loadRoboto Samples.neverCancelled (lit "doc-1") ∅
            Samples.idle)
     = Return tt
  /\ snd (PdfViewer.loadFonts true None Samples.encode
            (Samples.serverOk (Return [Samples.unpaired; lit "Roboto-Regular"]))
            Samples.loadRoboto Samples.neverCancelled (lit "doc-1") ∅
            Samples.idle)
     = Samples.idle
  /\ PdfViewer.fontFamily
       (PdfViewer.loadedFonts
          (snd (PdfViewer.loadFonts true None Samples.encode
                  (Samples.serverOk (Return [Samples.unpaired; lit "Roboto-Regular"]))
                  Samples.loadRoboto Samples.neverCancelled (lit "doc-1") ∅
                  Samples.idle)))
       (lit "Roboto-Regular")
     = lit "sans-serif"
  /\ PdfViewer.fontFamily
       (PdfViewer.loadedFonts
          (snd (PdfViewer.loadFonts true None Samples.encode
                  (Samples.serverOk (Return [lit "Roboto-Regular"; Samples.unpaired]))
                  Samples.loadRoboto Samples.neverCancelled (lit "doc-1") ∅
                  Samples.idle)))
       (lit "Roboto-Regular")
     = [34%N] ++ lit "Roboto-Regular" ++ [34%N] ++ lit ", sans-serif".
Proof.
  split; [reflexivity|]. split; [eexists; eexists; split; reflexivity|].
  split; [reflexivity|]. split; [reflexivity|].
  split; vm_compute; reflexivity.
Qed.

(** On the samples: the font that loads is used, and a listing that fails
  leaves the viewer as it was. *)
Lemma loadFonts_samples :
  PdfViewer.fontFamily
    (PdfViewer.loadedFonts
       (snd (PdfViewer.loadFonts true None Samples.encode
               (Samples.serverOk (Return [lit "Foo-Bold"; lit "Roboto-Regular"]))
               Samples.loadRoboto Samples.neverCancelled (lit "doc-1") ∅
               Samples.idle)))
    (lit "Roboto-Regular")
  = [34%N] ++ lit "Roboto-Regular" ++ [34%N] ++ lit ", sans-serif"
  /\ fst (PdfViewer.loadFonts true None Samples.encode Samples.serverDown
            Samples.loadRoboto Samples.neverCancelled (lit "doc-1") ∅
            Samples.idle)
     = Return tt
  /\ snd (PdfViewer.loadFonts true None Samples.encode Samples.offline
            Samples.loadRoboto Samples.neverCancelled (lit "doc-1") ∅
            Samples.idle)
     = Samples.idle.
Proof. repeat split; vm_compute; reflexivity. Qed.


(* ===================================================================== *)
(** * More on the built-ins *)
(* ===================================================================== *)

(** ** Printing integers is injective *)

Lemma lit_inj (s t : string) : lit s = lit t -> s = t.
Proof.
  unfold lit. intros H.
  rewrite <- (string_of_list_ascii_of_string s),
          <- (string_of_list_ascii_of_string t).
  f_equal.
  revert H. generalize (list_ascii_of_string s) (list_ascii_of_string t).
  induction l as [|a l IH]; intros [|b l']; simpl; try discriminate;
    [reflexivity|].
  intros [= Hab Hl]. f_equal; [|now apply IH].
  now rewrite <- (ascii_N_embedding a), <- (ascii_N_embedding b), Hab.
Qed.

Lemma string_of_uint_nonnil (d : Decimal.uint) :
  d <> Decimal.Nil -> NilZero.string_of_uint d = NilEmpty.string_of_uint d.
Proof. destruct d; [congruence|reflexivity..]. Qed.

Lemma Number_toString_inj (a b : Z) :
  Number_toString a = Number_toString b -> a = b.
Proof.
  unfold Number_toString. intros H. apply lit_inj in H.
  apply DecimalZ.to_int_inj.
  assert (Hnil : forall z, Z.to_int z <> Decimal.Pos Decimal.Nil
                           /\ Z.to_int z <> Decimal.Neg Decimal.Nil).
  { intros [|p|p]; simpl; split; try discriminate;
      intros [= E]; now apply (Unsigned.to_uint_nonnil p). }
  destruct (Hnil a) as [Ha1 Ha2], (Hnil b) as [Hb1 Hb2].
  pose proof (NilZero.isi _ Ha1 Ha2) as Ia.
  pose proof (NilZero.isi _ Hb1 Hb2) as Ib.
  rewrite H in Ia. congruence.
Qed.

(** ** [trim] leaves no white space at either end *)

Lemma trimStart_length (s : jsstring) : length (trimStart s) <= length s.
Proof.
  induction s as [|c s IH]; simpl; [lia|].
  destruct (isWhiteSpace c); simpl; lia.
Qed.

Lemma trimStart_fixed (s : jsstring) :
  trimStart s = s <-> s = [] \/ exists c s', s = c :: s' /\ isWhiteSpace c = false.
Proof.
  split.
  - destruct s as [|c s]; [now left|]. simpl.
    destruct (isWhiteSpace c) eqn:E.
    + intros H. pose proof (trimStart_length s) as Hl.
      rewrite H in Hl. simpl in Hl. lia.
    + intros _. right. now exists c, s.
  - intros [->|(c & s' & -> & Hc)]; [reflexivity|]. simpl. now rewrite Hc.
Qed.

Lemma trimStart_idem (s : jsstring) : trimStart (trimStart s) = trimStart s.
Proof.
  induction s as [|c s IH]; simpl; [reflexivity|].
  destruct (isWhiteSpace c) eqn:E; [assumption|]. simpl. now rewrite E.
Qed.

Lemma trimStart_snoc (s : jsstring) (c : N) :
  isWhiteSpace c = false -> trimStart (s ++ [c]) = trimStart s ++ [c].
Proof.
  intros Hc. induction s as [|d s IH]; simpl.
  - now rewrite Hc.
  - destruct (isWhiteSpace d); [assumption|reflexivity].
Qed.

Lemma trimEnd_idem (s : jsstring) : trimEnd (trimEnd s) = trimEnd s.
Proof. unfold trimEnd. now rewrite rev_involutive, trimStart_idem. Qed.

Lemma trimStart_trimEnd (s : jsstring) :
  trimStart s = s -> trimStart (trimEnd s) = trimEnd s.
Proof.
  intros H. apply trimStart_fixed in H as [->|(c & s' & -> & Hc)];
    [reflexivity|].
  unfold trimEnd. simpl. rewrite (trimStart_snoc _ _ Hc), rev_unit.
  simpl. now rewrite Hc.
Qed.

Lemma trim_fixed (s : jsstring) :
  trimStart (trim s) = trim s /\ trimEnd (trim s) = trim s
  /\ trim (trim s) = trim s.
Proof.
  unfold trim.
  assert (H1 : trimStart (trimEnd (trimStart s)) = trimEnd (trimStart s))
    by (apply trimStart_trimEnd, trimStart_idem).
  split; [assumption|]. split; [apply trimEnd_idem|].
  now rewrite H1, trimEnd_idem.
Qed.

(** ** A finite coordinate is less than one point from itself *)

Lemma finite_cases (x : number) :
  Spec.finite x = true ->
  (exists s, Prim2SF x = S754_zero s) \/ (exists s m e, Prim2SF x = S754_finite s m e).
Proof.
  unfold Spec.finite, PrimFloat.is_finite, PrimFloat.is_nan, PrimFloat.is_infinity.
  intros H. apply negb_true_iff, orb_false_iff in H. destruct H as [Hnan Hinf].
  apply negb_false_iff in Hnan.
  rewrite FloatAxioms.eqb_spec in Hnan.
  rewrite FloatAxioms.eqb_spec, FloatAxioms.abs_spec in Hinf.
  destruct (Prim2SF x) as [s|s| |s m e].
  - left. now exists s.
  - exfalso. change (Prim2SF infinity) with (S754_infinity false) in Hinf.
    simpl in Hinf. discriminate.
  - discriminate.
  - right. now exists s, m, e.
Qed.

Lemma near_refl (x : number) :
  Spec.finite x = true -> num_lt (Math_abs (num_sub x x)) 1%float = true.
Proof.
  intros Hfin. unfold num_lt, Math_abs, num_sub.
  rewrite FloatAxioms.ltb_spec, FloatAxioms.abs_spec, FloatAxioms.sub_spec.
  change (Prim2SF 1%float) with (S754_finite false 4503599627370496 (-52)).
  destruct (finite_cases x Hfin) as [[s ->]|(s & m & e & ->)].
  - destruct s; reflexivity.
  - unfold SF64sub, SFsub. rewrite Z.sub_diag. reflexivity.
Qed.

Lemma sameRect_refl (e : EditOperation.t) :
  Spec.finite (Rect.x0 (EditOperation.rect e)) = true ->
  Spec.finite (Rect.y0 (EditOperation.rect e)) = true ->
  App.sameRect e e = true.
Proof.
  intros Hx Hy. unfold App.sameRect.
  now rewrite Z.eqb_refl, (near_refl _ Hx), (near_refl _ Hy).
Qed.

(* ===================================================================== *)
(** * More on the edit list *)
(* ===================================================================== *)

Lemma addEdit_self (edit : EditOperation.t) (prev : list EditOperation.t) :
  edit ∈ App.addEdit edit prev.
Proof.
  destruct (addEdit_cases edit prev) as [[-> _]|(i & old & Hl & _ & _ & ->)].
  - apply elem_of_app. right. left.
  - apply (list_elem_of_lookup_2 _ i).
    apply list_lookup_insert_eq. eapply lookup_lt_Some; eassumption.
Qed.

Lemma addEdit_elem (edit x : EditOperation.t) (prev : list EditOperation.t) :
  x ∈ App.addEdit edit prev -> x = edit \/ x ∈ prev.
Proof.
  destruct (addEdit_cases edit prev) as [[-> _]|(i & old & Hl & _ & _ & ->)].
  - intros H. apply elem_of_app in H as [H|H]; [now right|].
    apply list_elem_of_singleton in H. now left.
  - intros H. apply list_elem_of_lookup_1 in H as [k Hk].
    apply list_lookup_insert_Some in Hk as [(_ & <- & _)|[_ Hk]]; [now left|].
    right. eapply list_elem_of_lookup_2; eassumption.
Qed.

Lemma addEdit_length (edit : EditOperation.t) (prev : list EditOperation.t) :
  length prev <= length (App.addEdit edit prev) <= S (length prev).
Proof.
  destruct (addEdit_cases edit prev) as [[-> _]|(i & old & _ & _ & _ & ->)].
  - rewrite length_app. simpl. lia.
  - rewrite length_insert. lia.
Qed.

(** [find] answers the first element that satisfies the predicate. *)
Lemma find_first {A : Type} (p : A -> bool) (l : list A) (i : nat) (x : A) :
  l !! i = Some x -> p x = true ->
  (forall j y, j < i -> l !! j = Some y -> p y = false) ->
  find p l = Some x.
Proof.
  revert i. induction l as [|y l IH]; intros i Hl Hp Hfirst.
  - rewrite lookup_nil in Hl. discriminate.
  - destruct i as [|i]; simpl in *.
    + injection Hl as ->. now rewrite Hp.
    + rewrite (Hfirst 0 y); [|lia|reflexivity].
      apply (IH i); try assumption.
      intros j z Hj Hz. apply (Hfirst (S j)); [lia|assumption].
Qed.

(** After an addition, looking the incoming edit up by its own rect finds
    it, as soon as the rect matches itself. *)
Lemma find_addEdit (edit : EditOperation.t) (prev : list EditOperation.t) :
  App.sameRect edit edit = true ->
  find (App.sameRect edit) (App.addEdit edit prev) = Some edit.
Proof.
  intros Hrefl.
  destruct (addEdit_cases edit prev)
    as [[-> Hnone]|(i & old & Hl & _ & Hfirst & ->)].
  - apply (find_first _ _ (length prev)); [|assumption|].
    + rewrite lookup_app_r, Nat.sub_diag; [reflexivity|lia].
    + intros j y Hj Hy. rewrite lookup_app_l in Hy by assumption.
      apply Hnone. eapply list_elem_of_lookup_2; eassumption.
  - apply (find_first _ _ i); [|assumption|].
    + apply list_lookup_insert_eq. eapply lookup_lt_Some; eassumption.
    + intros j y Hj Hy. rewrite list_lookup_insert_ne in Hy by lia.
      now apply (Hfirst j).
Qed.

(** X1. However the additions went, the edit submitted last is in the
    list; the list never shrinks under additions and grows by at most one
    per addition; and it holds nothing but edits that were in it or were
    submitted. *)
Theorem addAll_keeps_latest
  (es : list EditOperation.t) (e : EditOperation.t) (s : App.State) :
  e ∈ App.edits (Spec.addAll (es ++ [e]) s)
  /\ length (App.edits s) <= length (App.edits (Spec.addAll es s))
  /\ length (App.edits (Spec.addAll es s)) <= length (App.edits s) + length es
  /\ Forall (fun x => x ∈ App.edits s \/ x ∈ es) (App.edits (Spec.addAll es s)).
Proof.
  split.
  - unfold Spec.addAll. rewrite fold_left_app. cbn [fold_left].
    rewrite edits_handleAddEdit. apply addEdit_self.
  - revert s. induction es as [|x es IH]; intros s.
    + simpl. split; [lia|]. split; [lia|].
      apply Forall_forall. intros y Hy. now left.
    + simpl. destruct (IH (App.handleAddEdit x s)) as (Hlow & Hup & Hall).
      rewrite edits_handleAddEdit in Hlow, Hup.
      pose proof (addEdit_length x (App.edits s)) as Hlen.
      split; [lia|]. split; [lia|].
      apply Forall_forall. intros y Hy.
      rewrite Forall_forall in Hall. destruct (Hall y Hy) as [Hin|Hin].
      * rewrite edits_handleAddEdit in Hin.
        apply addEdit_elem in Hin as [->|Hin]; [right; left|now left].
      * right. now right.
Qed.

(** X2. Confirming an edit and opening the span again. When the span's
    [x0] and [y0] are finite and the trimmed value passes the guard, the
    edit that [confirmEdit] adds is the one [getEditForSpan] then finds
    for that span on that page, and a click on the span prefills the
    trimmed value. *)
Theorem confirmEdit_then_reopen
  (currentPage : Z) (span : TextSpan.t) (s : PdfViewer.State)
  (app : App.State) :
  PdfViewer.editingSpan s = Some span ->
  Spec.finite (Rect.x0 (TextSpan.rect span)) = true ->
  Spec.finite (Rect.y0 (TextSpan.rect span)) = true ->
  trim (PdfViewer.editValue s) <> [] ->
  trim (PdfViewer.editValue s) <> TextSpan.text span ->
  PdfViewer.getEditForSpan
    (App.edits (snd (PdfViewer.confirmEdit currentPage App.handleAddEdit s app)))
    currentPage span
  = Some (EditOperation.mk
            (lit "edit-" ++ Number_toString (PdfViewer.editCounter s + 1))
            currentPage (TextSpan.rect span) (TextSpan.text span)
            (trim (PdfViewer.editValue s)) (TextSpan.font span)
            (TextSpan.size span) (TextSpan.color span))
  /\ PdfViewer.editValue
       (PdfViewer.handleSpanClick
          (App.edits (snd (PdfViewer.confirmEdit currentPage App.handleAddEdit s app)))
          currentPage span
          (fst (PdfViewer.confirmEdit currentPage App.handleAddEdit s app)))
     = trim (PdfViewer.editValue s).
Proof.
  intros Hspan Hx Hy Hne Hdiff.
  set (edit := EditOperation.mk
                 (lit "edit-" ++ Number_toString (PdfViewer.editCounter s + 1))
                 currentPage (TextSpan.rect span) (TextSpan.text span)
                 (trim (PdfViewer.editValue s)) (TextSpan.font span)
                 (TextSpan.size span) (TextSpan.color span)).
  assert (Hfound : PdfViewer.getEditForSpan
                     (App.edits (snd (PdfViewer.confirmEdit currentPage
                                        App.handleAddEdit s app)))
                     currentPage span = Some edit).
  { unfold PdfViewer.confirmEdit. rewrite Hspan.
    destruct (truthy (trim (PdfViewer.editValue s))) eqn:Ht;
      [|apply truthy_false in Ht; contradiction].
    destruct (str_eq (trim (PdfViewer.editValue s)) (TextSpan.text span)) eqn:Hs;
      [apply str_eq_true in Hs; contradiction|].
    simpl. fold edit.
    change (PdfViewer.getEditForSpan ?l currentPage span)
      with (find (App.sameRect edit) l).
    apply find_addEdit. now apply sameRect_refl. }
  split; [assumption|].
  unfold PdfViewer.handleSpanClick. simpl.
  unfold PdfViewer.getEditForSpan in Hfound. rewrite Hfound. reflexivity.
Qed.

Lemma confirmEdit_then_reopen_witness :
  PdfViewer.getEditForSpan
    (App.edits (snd (PdfViewer.confirmEdit 0 App.handleAddEdit
                       (Samples.editing " Bonjour Monde  ") Samples.loaded)))
    0 Samples.span
  = Some Samples.bonjour
  /\ PdfViewer.editValue
       (PdfViewer.handleSpanClick
          (App.edits (snd (PdfViewer.confirmEdit 0 App.handleAddEdit
                             (Samples.editing " Bonjour Monde  ") Samples.loaded)))
          0 Samples.span
          (fst (PdfViewer.confirmEdit 0 App.handleAddEdit
                  (Samples.editing " Bonjour Monde  ") Samples.loaded)))
     = lit "Bonjour Monde".
Proof.
  apply (confirmEdit_then_reopen 0 Samples.span
           (Samples.editing " Bonjour Monde  ") Samples.loaded).
  - reflexivity.
  - reflexivity.
  - reflexivity.
  - vm_compute. discriminate.
  - vm_compute. discriminate.
Defined.

(** X3. Confirming twice adds at most one edit: once [confirmEdit] has
    run, or the editor was cancelled, a further [confirmEdit] changes
    neither the viewer nor the parent and draws no key. *)
Theorem confirmEdit_twice
  (P : Type) (currentPage : Z) (onAddEdit : EditOperation.t -> P -> P)
  (s : PdfViewer.State) (parent : P) :
  PdfViewer.confirmEdit currentPage onAddEdit
    (fst (PdfViewer.confirmEdit currentPage onAddEdit s parent))
    (snd (PdfViewer.confirmEdit currentPage onAddEdit s parent))
  = PdfViewer.confirmEdit currentPage onAddEdit s parent
  /\ PdfViewer.confirmEdit currentPage onAddEdit (PdfViewer.cancelEdit s) parent
     = (PdfViewer.cancelEdit s, parent).
Proof.
  split; [|reflexivity].
  unfold PdfViewer.confirmEdit at 2 3 4.
  destruct (PdfViewer.editingSpan s) as [span|] eqn:Hspan.
  - destruct (truthy _ && negb _); reflexivity.
  - simpl. unfold PdfViewer.confirmEdit. now rewrite Hspan.
Qed.

(* ===================================================================== *)
(** * Page navigation *)
(* ===================================================================== *)

(** X4. On a valid page of the document, the previous and next buttons
    are disabled exactly when their handler would leave the page where it
    is; when enabled, the handler moves by exactly one page; either way
    the page stays a page of the document. *)
Theorem page_buttons_match_handlers (d : DocumentInfo.t) (s : App.State) :
  App.docInfo s = Some d ->
  (0 <= App.currentPage s < DocumentInfo.pageCount d)%Z ->
  (Toolbar.prevDisabled (App.currentPage s) = true
   <-> App.currentPage (App.handlePrevPage s) = App.currentPage s)
  /\ (Toolbar.prevDisabled (App.currentPage s) = false
      <-> App.currentPage (App.handlePrevPage s) = (App.currentPage s - 1)%Z)
  /\ (Toolbar.nextDisabled (App.currentPage s) (DocumentInfo.pageCount d) = true
      <-> App.currentPage (App.handleNextPage s) = App.currentPage s)
  /\ (Toolbar.nextDisabled (App.currentPage s) (DocumentInfo.pageCount d) = false
      <-> App.currentPage (App.handleNextPage s) = (App.currentPage s + 1)%Z)
  /\ (0 <= App.currentPage (App.handlePrevPage s) < DocumentInfo.pageCount d)%Z
  /\ (0 <= App.currentPage (App.handleNextPage s) < DocumentInfo.pageCount d)%Z.
Proof.
  intros Hdoc Hpage.
  unfold Toolbar.prevDisabled, Toolbar.nextDisabled, App.handlePrevPage,
    App.handleNextPage. simpl. rewrite Hdoc. simpl.
  rewrite !Z.leb_le, !Z.leb_gt. lia.
Qed.

Lemma page_buttons_match_handlers_witness :
  (Toolbar.prevDisabled 1 = true
   <-> App.currentPage (App.handlePrevPage (snd Samples.afterEditSession)) = 1%Z)
  /\ (Toolbar.prevDisabled 1 = false
      <-> App.currentPage (App.handlePrevPage (snd Samples.afterEditSession)) = 0%Z)
  /\ (Toolbar.nextDisabled 1 3 = true
      <-> App.currentPage (App.handleNextPage (snd Samples.afterEditSession)) = 1%Z)
  /\ (Toolbar.nextDisabled 1 3 = false
      <-> App.currentPage (App.handleNextPage (snd Samples.afterEditSession)) = 2%Z)
  /\ (0 <= App.currentPage (App.handlePrevPage (snd Samples.afterEditSession)) < 3)%Z
  /\ (0 <= App.currentPage (App.handleNextPage (snd Samples.afterEditSession)) < 3)%Z.
Proof.
  apply (page_buttons_match_handlers Samples.book (snd Samples.afterEditSession)).
  - reflexivity.
  - vm_compute. split; [discriminate|reflexivity].
Defined.

(* ===================================================================== *)
(** * What the handlers leave alone *)
(* ===================================================================== *)

Lemma handleExport_frame
  (DEV : bool) (VITE_API_URL : option jsstring)
  (JSON_stringify : Api.JSValue -> jsstring)
  (T : Type) (fetch : Api.Request -> result (Api.Response T)) (s : App.State) :
  App.docInfo (fst (App.handleExport DEV VITE_API_URL JSON_stringify fetch s))
  = App.docInfo s
  /\ App.currentPage (fst (App.handleExport DEV VITE_API_URL JSON_stringify fetch s))
     = App.currentPage s
  /\ App.edits (fst (App.handleExport DEV VITE_API_URL JSON_stringify fetch s))
     = App.edits s
  /\ App.zoom (fst (App.handleExport DEV VITE_API_URL JSON_stringify fetch s))
     = App.zoom s.
Proof.
  unfold App.handleExport.
  destruct (App.docInfo s) as [d|] eqn:Hd;
    [destruct (length (App.edits s) =? 0);
     [|destruct (Api.exportDocument _ _ _ _ _ _)]|];
    simpl; rewrite ?Hd; auto.
Qed.

Section ViewerFrames.

Context (DEV : bool) (VITE_API_URL : option jsstring)
        (encodeURIComponent : jsstring -> result jsstring)
        (fetchFonts : Api.Request -> result (Api.Response (list jsstring)))
        (load : PdfViewer.FontFace -> result PdfViewer.FontFace)
        (cancelled : jsstring -> bool)
        (docId : jsstring) (captured : gset jsstring).

Lemma loadOne_frame (name : jsstring) (s : PdfViewer.State) :
  Spec.sameEditor s (snd (PdfViewer.loadOne DEV VITE_API_URL encodeURIComponent load
                       cancelled docId captured name s))
  /\ ((forall n, cancelled n = true) ->
      PdfViewer.loadedFonts
        (snd (PdfViewer.loadOne DEV VITE_API_URL encodeURIComponent load
                cancelled docId captured name s))
      = PdfViewer.loadedFonts s).
Proof.
  unfold PdfViewer.loadOne, Spec.sameEditor.
  destruct (bool_decide (name ∈ captured)); simpl; [repeat split|].
  unfold PdfViewer.try_catch, PdfViewer.bind, PdfViewer.await,
    PdfViewer.call, PdfViewer.modify, PdfViewer.ret.
  destruct (Api.fontFileUrl _ _ _ _ _) as [url|e]; simpl; [|repeat split].
  destruct (load _) as [f|e]; simpl; [|repeat split].
  destruct (cancelled name) eqn:Hc; simpl; [repeat split|].
  split; [repeat split|]. intros Hall. rewrite Hall in Hc. discriminate.
Qed.

Lemma forOf_frame (names : list jsstring) (s : PdfViewer.State) :
  Spec.sameEditor s (snd (PdfViewer.forOf DEV VITE_API_URL encodeURIComponent load
                       cancelled docId captured names s))
  /\ ((forall n, cancelled n = true) ->
      PdfViewer.loadedFonts
        (snd (PdfViewer.forOf DEV VITE_API_URL encodeURIComponent load
                cancelled docId captured names s))
      = PdfViewer.loadedFonts s).
Proof.
  revert s. induction names as [|name rest IH]; intros s.
  - simpl. unfold Spec.sameEditor. repeat split.
  - simpl. unfold PdfViewer.bind.
    destruct (loadOne_frame name s) as (Hsame & Hfonts).
    destruct (PdfViewer.loadOne _ _ _ _ _ _ _ name s) as [[[]|e] s1];
      simpl in Hsame, Hfonts; [|now split].
    destruct (IH s1) as (Hsame' & Hfonts').
    split.
    + unfold Spec.sameEditor in *. intuition congruence.
    + intros Hall. rewrite (Hfonts' Hall). now apply Hfonts.
Qed.

Lemma loadFonts_frame (s : PdfViewer.State) :
  Spec.sameEditor s (snd (PdfViewer.loadFonts DEV VITE_API_URL encodeURIComponent
                       fetchFonts load cancelled docId captured s))
  /\ ((forall n, cancelled n = true) ->
      PdfViewer.loadedFonts
        (snd (PdfViewer.loadFonts DEV VITE_API_URL encodeURIComponent
                fetchFonts load cancelled docId captured s))
      = PdfViewer.loadedFonts s).
Proof.
  unfold PdfViewer.loadFonts, PdfViewer.try_catch, PdfViewer.bind,
    PdfViewer.await.
  destruct (Api.listFonts DEV VITE_API_URL fetchFonts docId) as [names|e].
  - destruct (forOf_frame names s) as (Hsame & Hfonts).
    destruct (PdfViewer.forOf _ _ _ _ _ _ _ names s) as [[[]|e] s1];
      simpl in Hsame, Hfonts; simpl; now split.
  - simpl. unfold Spec.sameEditor. repeat split.
Qed.

End ViewerFrames.

Lemma render_frame
  (DEV : bool) (VITE_API_URL : option jsstring) (drawn : result unit)
  (fetchText : Api.Request -> result (Api.Response PageText.t)) (cancelled : bool)
  (docId : jsstring) (currentPage : Z) (s : PdfViewer.State) :
  PdfViewer.editCounter
    (snd (PdfViewer.render DEV VITE_API_URL drawn fetchText cancelled docId
            currentPage s))
  = PdfViewer.editCounter s.
Proof.
  unfold PdfViewer.render, PdfViewer.try_catch, PdfViewer.bind,
    PdfViewer.await, PdfViewer.modify, PdfViewer.ret.
  destruct drawn as [[]|e]; [|reflexivity].
  destruct cancelled; simpl; [reflexivity|].
  destruct (Api.getPageText _ _ _ _ _); reflexivity.
Qed.

(* ===================================================================== *)
(** * Sessions *)
(* ===================================================================== *)

Section SessionFacts.

Context (DEV : bool) (VITE_API_URL : option jsstring)
        (JSON_stringify : Api.JSValue -> jsstring)
        (encodeURIComponent : jsstring -> result jsstring).

Local Abbreviation fire := (Spec.fire DEV VITE_API_URL JSON_stringify encodeURIComponent).
Local Abbreviation run := (Spec.run DEV VITE_API_URL JSON_stringify encodeURIComponent).
Local Abbreviation admissible :=
  (Spec.admissible DEV VITE_API_URL JSON_stringify encodeURIComponent).

(** What every enabled event preserves holds all along a session. *)
Lemma run_invariant (Inv : Spec.Session -> Prop) :
  (forall ev s, Inv s -> Spec.enabled ev s -> Inv (fire ev s)) ->
  forall evs s, Inv s -> admissible evs s -> Inv (run evs s).
Proof.
  intros Hstep evs. induction evs as [|ev evs IH]; intros s Hs Hadm; simpl.
  - assumption.
  - destruct Hadm as [Hen Hrest]. apply IH; [|assumption]. now apply Hstep.
Qed.

(** [addToast] and the handlers that call it. *)
Lemma addToast_fields (m : jsstring) (t : App.ToastType) (a : App.State) :
  App.toastId (App.addToast m t a) = (App.toastId a + 1)%Z
  /\ App.toasts (App.addToast m t a)
     = App.toasts a ++ [App.mkToast (App.toastId a + 1) m t].
Proof. split; reflexivity. Qed.

Lemma toastsFresh_addToast (m : jsstring) (t : App.ToastType) (a b : App.State) :
  App.toastId b = App.toastId a -> App.toasts b = App.toasts a ->
  Spec.toastsFresh a -> Spec.toastsFresh (App.addToast m t b).
Proof.
  intros Hid Hts [Hnd Hle]. unfold Spec.toastsFresh.
  destruct (addToast_fields m t b) as [-> ->]. rewrite Hid, Hts.
  rewrite Forall_forall in Hle. split.
  - rewrite List.map_app. simpl. apply NoDup_app. split; [assumption|].
    split; [|apply NoDup_singleton].
    intros x Hx Hx'. apply list_elem_of_singleton in Hx'. subst x.
    apply list_elem_of_In, List.in_map_iff in Hx as (t0 & Ht0 & Hin).
    apply list_elem_of_In, Hle in Hin. lia.
  - apply Forall_app. split.
    + apply Forall_forall. intros t0 Ht0. apply Hle in Ht0. lia.
    + apply Forall_singleton. simpl. lia.
Qed.

Lemma toastsFresh_same (a b : App.State) :
  App.toastId b = App.toastId a -> App.toasts b = App.toasts a ->
  Spec.toastsFresh a -> Spec.toastsFresh b.
Proof. unfold Spec.toastsFresh. now intros -> ->. Qed.

Lemma NoDup_map_filter {A B : Type} (f : A -> B) (p : A -> bool) (l : list A) :
  NoDup (List.map f l) -> NoDup (List.map f (List.filter p l)).
Proof.
  induction l as [|x l IH]; simpl; intros H; [assumption|].
  apply NoDup_cons in H as [Hx Hl].
  destruct (p x); simpl; [|now apply IH].
  apply NoDup_cons. split; [|now apply IH].
  intros Hin. apply Hx.
  apply list_elem_of_In, List.in_map_iff in Hin as (y & Hy & Hin).
  apply List.filter_In in Hin as [Hin _].
  apply list_elem_of_In, List.in_map_iff. now exists y.
Qed.

Lemma Forall_filter_bool {A : Type} (Q : A -> Prop) (p : A -> bool) (l : list A) :
  Forall Q l -> Forall Q (List.filter p l).
Proof.
  rewrite !Forall_forall. intros H x Hx.
  apply list_elem_of_In, List.filter_In in Hx as [Hx _].
  now apply H, list_elem_of_In.
Qed.

Lemma toastsFresh_dismissToast (id : Z) (a : App.State) :
  Spec.toastsFresh a -> Spec.toastsFresh (App.dismissToast id a).
Proof.
  intros [Hnd Hle]. split; simpl.
  - now apply NoDup_map_filter.
  - now apply Forall_filter_bool.
Qed.

Lemma toastsFresh_handleFile
  (fetch : Api.Request -> result (Api.Response DocumentInfo.t)) (file : Api.File)
  (a : App.State) :
  Spec.toastsFresh a -> Spec.toastsFresh (App.handleFile DEV VITE_API_URL fetch file a).
Proof.
  intros H. unfold App.handleFile.
  destruct (Api.uploadDocument DEV VITE_API_URL fetch file) as [info|err].
  - apply (toastsFresh_same (App.addToast (App.uploadedMessage info) App.success a));
      [reflexivity..|].
    now apply (toastsFresh_addToast _ _ a).
  - apply (toastsFresh_same
             (App.addToast (nullish (message_of err) (lit "Erro no upload"))
                           App.error a));
      [reflexivity..|].
    now apply (toastsFresh_addToast _ _ a).
Qed.

Lemma toastsFresh_handleExport
  (T : Type) (fetch : Api.Request -> result (Api.Response T)) (a : App.State) :
  Spec.toastsFresh a ->
  Spec.toastsFresh (fst (App.handleExport DEV VITE_API_URL JSON_stringify fetch a)).
Proof.
  intros H. unfold App.handleExport.
  destruct (App.docInfo a); [|assumption].
  destruct (length (App.edits a) =? 0); [assumption|].
  destruct (Api.exportDocument _ _ _ _ _ _) as [blob|err]; simpl.
  - apply (toastsFresh_same (App.addToast (lit "PDF exportado com sucesso!")
                                          App.success a));
      [reflexivity..|].
    now apply (toastsFresh_addToast _ _ a).
  - apply (toastsFresh_same
             (App.addToast (nullish (message_of err) (lit "Erro ao exportar"))
                           App.error a));
      [reflexivity..|].
    now apply (toastsFresh_addToast _ _ a).
Qed.

(** [confirmEdit] against the application: nothing happens, or one edit
    made from the span goes through [handleAddEdit]. *)
Lemma confirmEdit_cases (v : PdfViewer.State) (a : App.State) :
  (snd (PdfViewer.confirmEdit (App.currentPage a) App.handleAddEdit v a) = a
   /\ PdfViewer.editCounter
        (fst (PdfViewer.confirmEdit (App.currentPage a) App.handleAddEdit v a))
      = PdfViewer.editCounter v)
  \/ (exists span,
        PdfViewer.editingSpan v = Some span
        /\ trim (PdfViewer.editValue v) <> []
        /\ trim (PdfViewer.editValue v) <> TextSpan.text span
        /\ PdfViewer.editCounter
             (fst (PdfViewer.confirmEdit (App.currentPage a) App.handleAddEdit v a))
           = (PdfViewer.editCounter v + 1)%Z
        /\ snd (PdfViewer.confirmEdit (App.currentPage a) App.handleAddEdit v a)
           = App.handleAddEdit
               (EditOperation.mk
                  (lit "edit-" ++ Number_toString (PdfViewer.editCounter v + 1))
                  (App.currentPage a) (TextSpan.rect span) (TextSpan.text span)
                  (trim (PdfViewer.editValue v)) (TextSpan.font span)
                  (TextSpan.size span) (TextSpan.color span))
               a).
Proof.
  unfold PdfViewer.confirmEdit.
  destruct (PdfViewer.editingSpan v) as [span|]; [|left; now split].
  destruct (truthy (trim (PdfViewer.editValue v))) eqn:Ht;
    [destruct (str_eq (trim (PdfViewer.editValue v)) (TextSpan.text span)) eqn:Hs|];
    simpl; try (left; now split).
  right. exists span. split; [reflexivity|].
  split; [intros Heq; apply truthy_false in Heq; congruence|].
  split; [intros Heq; apply str_eq_true in Heq; congruence|].
  split; reflexivity.
Qed.

(** The upload area against the application: nothing changes but the
    toasts, or a document arrives and the session starts afresh. *)
Lemma onDrop_cases
  (fetch : Api.Request -> result (Api.Response DocumentInfo.t))
  (accepted : list Api.File) (a : App.State) :
  App.zoom (UploadArea.onDrop (App.handleFile DEV VITE_API_URL fetch) accepted a)
  = App.zoom a
  /\ ((App.docInfo (UploadArea.onDrop (App.handleFile DEV VITE_API_URL fetch) accepted a)
       = App.docInfo a
       /\ App.currentPage (UploadArea.onDrop (App.handleFile DEV VITE_API_URL fetch) accepted a)
          = App.currentPage a
       /\ App.edits (UploadArea.onDrop (App.handleFile DEV VITE_API_URL fetch) accepted a)
          = App.edits a)
      \/ (exists info,
            App.docInfo (UploadArea.onDrop (App.handleFile DEV VITE_API_URL fetch) accepted a)
            = Some info
            /\ App.currentPage (UploadArea.onDrop (App.handleFile DEV VITE_API_URL fetch) accepted a)
               = 0%Z
            /\ App.edits (UploadArea.onDrop (App.handleFile DEV VITE_API_URL fetch) accepted a)
               = [])).
Proof.
  destruct accepted as [|file rest]; simpl; [split; [reflexivity|left; auto]|].
  unfold App.handleFile.
  destruct (Api.uploadDocument DEV VITE_API_URL fetch file) as [info|err]; simpl.
  - split; [reflexivity|]. right. exists info. auto.
  - split; [reflexivity|]. left. auto.
Qed.

(** ** Zoom *)

Lemma zoom_step (z : number) :
  z ∈ Spec.zoomLevels ->
  Math_min (num_add z 0.25%float) 4%float ∈ Spec.zoomLevels
  /\ Math_max (num_sub z 0.25%float) 0.5%float ∈ Spec.zoomLevels
  /\ Spec.zoomInRange z = true.
Proof.
  intros H. unfold Spec.zoomLevels in H.
  split_elem H;
    (split; [|split; [|reflexivity]]);
    apply list_elem_of_In; vm_compute;
    repeat (first [left; reflexivity | right]).
Qed.

Lemma fire_zoom (ev : Spec.Event) (s : Spec.Session) :
  App.zoom (snd s) ∈ Spec.zoomLevels ->
  App.zoom (snd (fire ev s)) ∈ Spec.zoomLevels.
Proof.
  destruct s as [v a]. intros H.
  destruct ev; simpl; try assumption.
  - now rewrite (proj1 (onDrop_cases fetch accepted a)).
  - now apply zoom_step.
  - now apply zoom_step.
  - now rewrite (proj2 (proj2 (proj2 (handleExport_frame DEV VITE_API_URL
                                         JSON_stringify unit fetch a)))).
  - destruct (confirmEdit_cases v a) as [[-> _]|(span & _ & _ & _ & _ & ->)];
      assumption.
  - destruct (App.docInfo a); assumption.
  - destruct (App.docInfo a); assumption.
Qed.

(** ** Toasts *)

Lemma fire_toastsFresh (ev : Spec.Event) (s : Spec.Session) :
  Spec.toastsFresh (snd s) -> Spec.toastsFresh (snd (fire ev s)).
Proof.
  destruct s as [v a]. intros H.
  destruct ev; simpl; try assumption.
  - destruct accepted as [|file rest]; simpl; [assumption|].
    now apply toastsFresh_handleFile.
  - now apply toastsFresh_dismissToast.
  - now apply toastsFresh_handleExport.
  - destruct (confirmEdit_cases v a) as [[-> _]|(span & _ & _ & _ & _ & ->)];
      assumption.
  - destruct (App.docInfo a); assumption.
  - destruct (App.docInfo a); assumption.
Qed.

End SessionFacts.

Section SessionEdits.

Context (DEV : bool) (VITE_API_URL : option jsstring)
        (JSON_stringify : Api.JSValue -> jsstring)
        (encodeURIComponent : jsstring -> result jsstring).

Local Abbreviation fire := (Spec.fire DEV VITE_API_URL JSON_stringify encodeURIComponent).

(** ** Pages *)

Lemma pagesValid_same (a b : App.State) :
  App.docInfo b = App.docInfo a -> App.currentPage b = App.currentPage a ->
  App.edits b = App.edits a -> Spec.pagesValid a -> Spec.pagesValid b.
Proof. unfold Spec.pagesValid. now intros -> -> ->. Qed.

Lemma fire_pagesValid (ev : Spec.Event) (s : Spec.Session) :
  Spec.pagesValid (snd s) -> Spec.enabled ev s -> Spec.pagesValid (snd (fire ev s)).
Proof.
  destruct s as [v a]. intros H Hen. simpl in H.
  destruct ev; simpl in Hen |- *;
    try (destruct (App.docInfo a) as [d|] eqn:Hd; [|contradiction]);
    try assumption;
    try (apply (pagesValid_same a); [reflexivity..|assumption]).
  - (* Drop *)
    destruct (onDrop_cases DEV VITE_API_URL fetch accepted a)
      as (_ & [(H1 & H2 & H3)|(info & H1 & H2 & H3)]).
    + now apply (pagesValid_same a).
    + unfold Spec.pagesValid. rewrite H1, H2, H3.
      split; [now left|constructor].
  - (* PrevPage *)
    unfold Spec.pagesValid, Spec.validPage in *. simpl. rewrite Hd in *.
    destruct H as [Hp Hall]. split; [lia|assumption].
  - (* NextPage *)
    unfold Spec.pagesValid, Spec.validPage, Toolbar.nextDisabled in *.
    simpl. rewrite Hd in *. simpl.
    apply Z.leb_gt in Hen. destruct H as [Hp Hall]. split; [lia|assumption].
  - (* Export *)
    destruct (handleExport_frame DEV VITE_API_URL JSON_stringify unit fetch a)
      as (H1 & H2 & H3 & _).
    now apply (pagesValid_same a).
  - (* ResetEdits *)
    unfold Spec.pagesValid in *. simpl. rewrite Hd in *.
    split; [apply H|constructor].
  - (* RemoveEdit *)
    unfold Spec.pagesValid, EditPanel.removeClicked in *. simpl. rewrite Hd in *.
    split; [apply H|]. apply Forall_filter_bool, H.
  - (* GoToEdit *)
    unfold Spec.pagesValid in *. simpl. rewrite Hd in *.
    destruct H as [Hp Hall]. split; [|assumption].
    rewrite Forall_forall in Hall. now apply Hall.
  - (* ConfirmEdit *)
    destruct (confirmEdit_cases v a) as [[-> _]|(span & _ & _ & _ & _ & ->)];
      [assumption|].
    unfold Spec.pagesValid in *. simpl. rewrite Hd in *.
    destruct H as [Hp Hall]. split; [assumption|].
    apply Forall_forall. intros x Hx.
    apply addEdit_elem in Hx as [->|Hx]; [assumption|].
    rewrite Forall_forall in Hall. now apply Hall.
Qed.

(** ** Keys *)

Lemma map_insert_elem {A B : Type} (f : A -> B) (l : list A) (i : nat) (x : A)
  (z : B) :
  z ∈ List.map f (<[i := x]> l) -> z = f x \/ z ∈ List.map f l.
Proof.
  revert i. induction l as [|y l IH]; intros i Hz; [now right|].
  destruct i as [|i]; simpl in Hz.
  - apply elem_of_cons in Hz as [->|Hz]; [now left|]. right. now right.
  - apply elem_of_cons in Hz as [->|Hz]; [right; left|].
    destruct (IH i Hz) as [->|Hin]; [now left|]. right. now right.
Qed.

Lemma NoDup_map_insert {A B : Type} (f : A -> B) (l : list A) (i : nat) (x : A) :
  NoDup (List.map f l) -> f x ∉ List.map f l ->
  NoDup (List.map f (<[i := x]> l)).
Proof.
  revert i. induction l as [|y l IH]; intros i Hnd Hfresh; [assumption|].
  simpl in Hnd, Hfresh. apply NoDup_cons in Hnd as [Hy Hl].
  apply not_elem_of_cons in Hfresh as [Hxy Hxl].
  destruct i as [|i]; simpl; apply NoDup_cons.
  - split; assumption.
  - split; [|now apply IH].
    intros Hin. apply map_insert_elem in Hin as [Heq|Hin]; congruence.
Qed.

Lemma keysFresh_same (s s' : Spec.Session) :
  PdfViewer.editCounter (fst s') = PdfViewer.editCounter (fst s) ->
  App.edits (snd s') = App.edits (snd s) ->
  Spec.keysFresh s -> Spec.keysFresh s'.
Proof. unfold Spec.keysFresh. now intros -> ->. Qed.

Lemma keysFresh_filter (p : EditOperation.t -> bool) (s s' : Spec.Session) :
  PdfViewer.editCounter (fst s') = PdfViewer.editCounter (fst s) ->
  App.edits (snd s') = List.filter p (App.edits (snd s)) ->
  Spec.keysFresh s -> Spec.keysFresh s'.
Proof.
  unfold Spec.keysFresh, EditPanel.rowKeys. intros -> -> (Hc & Hnd & Hall).
  split; [assumption|]. split.
  - now apply NoDup_map_filter.
  - now apply Forall_filter_bool.
Qed.

Lemma keysFresh_nil (s s' : Spec.Session) :
  PdfViewer.editCounter (fst s') = PdfViewer.editCounter (fst s) ->
  App.edits (snd s') = [] ->
  Spec.keysFresh s -> Spec.keysFresh s'.
Proof.
  unfold Spec.keysFresh. intros -> -> (Hc & _ & _).
  split; [assumption|]. split; constructor.
Qed.

Lemma keysFresh_add (e : EditOperation.t) (s s' : Spec.Session) :
  PdfViewer.editCounter (fst s') = (PdfViewer.editCounter (fst s) + 1)%Z ->
  EditOperation.key e
  = lit "edit-" ++ Number_toString (PdfViewer.editCounter (fst s) + 1) ->
  App.edits (snd s') = App.addEdit e (App.edits (snd s)) ->
  Spec.keysFresh s -> Spec.keysFresh s'.
Proof.
  unfold Spec.keysFresh, EditPanel.rowKeys.
  intros -> Hkey -> (Hc & Hnd & Hall).
  assert (Hfresh : EditOperation.key e ∉ List.map EditOperation.key (App.edits (snd s))).
  { intros Hin.
    apply list_elem_of_In, List.in_map_iff in Hin as (x & Hx & Hin).
    rewrite Forall_forall in Hall.
    destruct (Hall x (proj2 (list_elem_of_In _ _) Hin)) as (n & Hn & Hxn).
    rewrite Hxn, Hkey in Hx. apply app_inv_head, Number_toString_inj in Hx. lia. }
  split; [lia|]. split.
  - destruct (addEdit_cases e (App.edits (snd s)))
      as [[-> _]|(i & old & _ & _ & _ & ->)].
    + rewrite List.map_app. simpl. apply NoDup_app.
      split; [assumption|]. split; [|apply NoDup_singleton].
      intros x Hx Hx'. apply list_elem_of_singleton in Hx'. now subst x.
    + now apply NoDup_map_insert.
  - apply Forall_forall. intros x Hx.
    apply addEdit_elem in Hx as [->|Hx].
    + exists (PdfViewer.editCounter (fst s) + 1)%Z. split; [lia|assumption].
    + rewrite Forall_forall in Hall. destruct (Hall x Hx) as (n & Hn & Hxn).
      exists n. split; [lia|assumption].
Qed.

Lemma fire_keysFresh (ev : Spec.Event) (s : Spec.Session) :
  Spec.keysFresh s -> Spec.keysFresh (fire ev s).
Proof.
  destruct s as [v a]. intros H.
  destruct ev; simpl;
    try (apply (keysFresh_same (v, a)); [reflexivity..|assumption]).
  - (* Drop *)
    destruct (onDrop_cases DEV VITE_API_URL fetch accepted a)
      as (_ & [(_ & _ & H3)|(info & _ & _ & H3)]).
    + apply (keysFresh_same (v, a)); [|assumption..].
      simpl. now destruct (App.docInfo _).
    + apply (keysFresh_nil (v, a)); [|assumption..].
      simpl. now destruct (App.docInfo _).
  - (* Export *)
    apply (keysFresh_same (v, a)); [reflexivity| |assumption].
    apply (handleExport_frame DEV VITE_API_URL JSON_stringify unit fetch a).
  - (* ResetEdits *)
    now apply (keysFresh_nil (v, a)).
  - (* RemoveEdit *)
    eapply (keysFresh_filter _ (v, a)); [reflexivity|reflexivity|assumption].
  - (* ConfirmEdit *)
    destruct (confirmEdit_cases v a) as [[Ha Hc]|(span & _ & _ & _ & Hc & Ha)].
    + apply (keysFresh_same (v, a)); [assumption|now rewrite Ha|assumption].
    + eapply (keysFresh_add _ (v, a)); [exact Hc| |rewrite Ha; reflexivity|assumption].
      reflexivity.
  - (* FontsEffect *)
    destruct (App.docInfo a) as [d|]; [|assumption].
    apply (keysFresh_same (v, a)); [|reflexivity|assumption].
    apply (loadFonts_frame DEV VITE_API_URL encodeURIComponent fetchFonts load
             cancelled (DocumentInfo.id d) captured v).
  - (* PageEffect *)
    destruct (App.docInfo a) as [d|]; [|assumption].
    apply (keysFresh_same (v, a)); [|reflexivity|assumption].
    apply render_frame.
Qed.

(** ** The edits' texts *)

Lemma fire_trimmed (ev : Spec.Event) (s : Spec.Session) :
  Forall Spec.trimmedEdit (App.edits (snd s)) ->
  Forall Spec.trimmedEdit (App.edits (snd (fire ev s))).
Proof.
  destruct s as [v a]. intros H.
  destruct ev; simpl; try assumption.
  - destruct (onDrop_cases DEV VITE_API_URL fetch accepted a)
      as (_ & [(_ & _ & ->)|(info & _ & _ & ->)]); [assumption|constructor].
  - now rewrite (proj1 (proj2 (proj2 (handleExport_frame DEV VITE_API_URL
                                         JSON_stringify unit fetch a)))).
  - constructor.
  - now apply Forall_filter_bool.
  - destruct (confirmEdit_cases v a)
      as [[-> _]|(span & _ & Hne & Hdiff & _ & ->)]; [assumption|].
    apply Forall_forall. intros x Hx. simpl in Hx.
    apply addEdit_elem in Hx as [->|Hx].
    + split; [assumption|]. split; [assumption|]. apply trim_fixed.
    + rewrite Forall_forall in H. now apply H.
  - destruct (App.docInfo a); assumption.
  - destruct (App.docInfo a); assumption.
Qed.

End SessionEdits.

(** Removing by a key that no other element carries removes that element
    and nothing else. *)
Lemma filter_remove_unique {A B : Type} (f : A -> B) (differs : B -> B -> bool)
  (l : list A) (x0 : A) :
  (forall x y, differs x y = false <-> x = y) ->
  NoDup (List.map f l) -> x0 ∈ l ->
  exists l1 l2,
    l = l1 ++ x0 :: l2
    /\ List.filter (fun x => differs (f x) (f x0)) l = l1 ++ l2.
Proof.
  intros Hdiff Hnd Hin.
  apply list_elem_of_split in Hin as (l1 & l2 & ->).
  exists l1, l2. split; [reflexivity|].
  rewrite List.map_app in Hnd. simpl in Hnd.
  apply NoDup_app in Hnd as (_ & Hdisj & Hnd2).
  apply NoDup_cons in Hnd2 as [Hx2 _].
  assert (Hkeep : forall l', f x0 ∉ List.map f l' ->
                             List.filter (fun x => differs (f x) (f x0)) l' = l').
  { induction l' as [|y l' IH]; simpl; intros Hy; [reflexivity|].
    apply not_elem_of_cons in Hy as [Hy Hl'].
    destruct (differs (f y) (f x0)) eqn:E.
    - now rewrite IH.
    - apply Hdiff in E. congruence. }
  rewrite List.filter_app. simpl.
  rewrite (proj2 (Hdiff (f x0) (f x0)) eq_refl).
  rewrite (Hkeep l1), (Hkeep l2); [reflexivity|assumption|].
  intros Hin. apply (Hdisj (f x0)); [assumption|left].
Qed.

(* ===================================================================== *)
(** * What holds of every session *)
(* ===================================================================== *)

(** The sample session is one the user interface allows. *)
Lemma editSession_admissible :
  Spec.admissible true None Samples.stringify Samples.encode
    Samples.editSession Spec.session0.
Proof.
  unfold Samples.editSession.
  repeat (split; [vm_compute; first [reflexivity | exact I | discriminate | left]|]).
  exact I.
Qed.

(** X5. Zoom. In every session the zoom factor is one of 0.5, 0.75, ...,
    4: [handleZoomIn] and [handleZoomOut] move it by a quarter and stop at
    4 and at 0.5, and nothing else changes it. *)
Theorem session_zoom_in_range
  (DEV : bool) (VITE_API_URL : option jsstring)
  (JSON_stringify : Api.JSValue -> jsstring)
  (encodeURIComponent : jsstring -> result jsstring) (evs : list Spec.Event) :
  Spec.admissible DEV VITE_API_URL JSON_stringify encodeURIComponent evs
    Spec.session0 ->
  App.zoom (snd (Spec.run DEV VITE_API_URL JSON_stringify encodeURIComponent evs
                   Spec.session0))
  ∈ Spec.zoomLevels
  /\ Spec.zoomInRange
       (App.zoom (snd (Spec.run DEV VITE_API_URL JSON_stringify encodeURIComponent
                         evs Spec.session0)))
     = true.
Proof.
  intros Hadm.
  assert (Hin : App.zoom (snd (Spec.run DEV VITE_API_URL JSON_stringify
                                 encodeURIComponent evs Spec.session0))
                ∈ Spec.zoomLevels).
  { apply (run_invariant DEV VITE_API_URL JSON_stringify encodeURIComponent
             (fun s => App.zoom (snd s) ∈ Spec.zoomLevels)); [| |assumption].
    - intros ev s Hs _. now apply fire_zoom.
    - apply list_elem_of_In. vm_compute.
      repeat (first [left; reflexivity | right]). }
  split; [assumption|]. now apply zoom_step.
Qed.

Lemma session_zoom_in_range_witness :
  App.zoom (snd Samples.afterEditSession) ∈ Spec.zoomLevels
  /\ Spec.zoomInRange (App.zoom (snd Samples.afterEditSession)) = true.
Proof.
  apply (session_zoom_in_range true None Samples.stringify Samples.encode
           Samples.editSession editSession_admissible).
Defined.

(** X6. Toasts. In every session the toasts have pairwise distinct ids,
    none above the counter [toastId]; so dismissing a toast, by a click or
    by its timer, removes that toast and no other, and the rest keep
    their order. *)
Theorem session_toasts_unique
  (DEV : bool) (VITE_API_URL : option jsstring)
  (JSON_stringify : Api.JSValue -> jsstring)
  (encodeURIComponent : jsstring -> result jsstring) (evs : list Spec.Event)
  (t : App.Toast) :
  Spec.admissible DEV VITE_API_URL JSON_stringify encodeURIComponent evs
    Spec.session0 ->
  t ∈ App.toasts (snd (Spec.run DEV VITE_API_URL JSON_stringify encodeURIComponent
                         evs Spec.session0)) ->
  Spec.toastsFresh (snd (Spec.run DEV VITE_API_URL JSON_stringify
                           encodeURIComponent evs Spec.session0))
  /\ exists before after,
       App.toasts (snd (Spec.run DEV VITE_API_URL JSON_stringify encodeURIComponent
                          evs Spec.session0))
       = before ++ t :: after
       /\ App.toasts
            (App.dismissToast (App.toast_id t)
               (snd (Spec.run DEV VITE_API_URL JSON_stringify encodeURIComponent
                       evs Spec.session0)))
          = before ++ after.
Proof.
  intros Hadm Hin.
  assert (Hfresh : Spec.toastsFresh
                     (snd (Spec.run DEV VITE_API_URL JSON_stringify
                             encodeURIComponent evs Spec.session0))).
  { apply (run_invariant DEV VITE_API_URL JSON_stringify encodeURIComponent
             (fun s => Spec.toastsFresh (snd s))); [| |assumption].
    - intros ev s Hs _. now apply fire_toastsFresh.
    - split; constructor. }
  split; [assumption|].
  apply (filter_remove_unique App.toast_id (fun x y => negb (x =? y)%Z));
    [|apply Hfresh|assumption].
  intros x y. rewrite negb_false_iff. apply Z.eqb_eq.
Qed.

Lemma session_toasts_unique_witness :
  Spec.toastsFresh (snd Samples.afterEditSession)
  /\ exists before after,
       App.toasts (snd Samples.afterEditSession)
       = before ++ App.mkToast 1 (App.uploadedMessage Samples.book) App.success
                   :: after
       /\ App.toasts (App.dismissToast 1 (snd Samples.afterEditSession))
          = before ++ after.
Proof.
  apply (session_toasts_unique true None Samples.stringify Samples.encode
           Samples.editSession
           (App.mkToast 1 (App.uploadedMessage Samples.book) App.success)
           editSession_admissible).
  vm_compute. left.
Defined.

(** X7. Keys. In every session the edits of the list have pairwise
    distinct keys, each [edit-n] for an [n] between 1 and the counter
    [_editCounter]: [nextEditKey] never hands out a key twice, and the
    rows of the edit panel have distinct React keys. *)
Theorem session_keys_unique
  (DEV : bool) (VITE_API_URL : option jsstring)
  (JSON_stringify : Api.JSValue -> jsstring)
  (encodeURIComponent : jsstring -> result jsstring) (evs : list Spec.Event) :
  Spec.admissible DEV VITE_API_URL JSON_stringify encodeURIComponent evs
    Spec.session0 ->
  Spec.keysFresh (Spec.run DEV VITE_API_URL JSON_stringify encodeURIComponent evs
                    Spec.session0).
Proof.
  intros Hadm.
  apply (run_invariant DEV VITE_API_URL JSON_stringify encodeURIComponent
           Spec.keysFresh); [| |assumption].
  - intros ev s Hs _. now apply fire_keysFresh.
  - split; [simpl; lia|]. split; constructor.
Qed.

Lemma session_keys_unique_witness :
  EditPanel.rowKeys (App.edits (snd Samples.afterEditSession)) = [lit "edit-2"]
  /\ Spec.keysFresh Samples.afterEditSession.
Proof.
  split; [reflexivity|].
  apply (session_keys_unique true None Samples.stringify Samples.encode
           Samples.editSession editSession_admissible).
Defined.

(** X8. Removing an edit. In every session, the remove button of a row
    removes that row's edit and no other: the list is the same with that
    one edit taken out, the others in their order. *)
Theorem session_remove_exact
  (DEV : bool) (VITE_API_URL : option jsstring)
  (JSON_stringify : Api.JSValue -> jsstring)
  (encodeURIComponent : jsstring -> result jsstring) (evs : list Spec.Event)
  (e : EditOperation.t) :
  Spec.admissible DEV VITE_API_URL JSON_stringify encodeURIComponent evs
    Spec.session0 ->
  e ∈ App.edits (snd (Spec.run DEV VITE_API_URL JSON_stringify encodeURIComponent
                        evs Spec.session0)) ->
  exists before after,
    App.edits (snd (Spec.run DEV VITE_API_URL JSON_stringify encodeURIComponent
                      evs Spec.session0))
    = before ++ e :: after
    /\ App.edits
         (EditPanel.removeClicked App.handleRemoveEdit e
            (snd (Spec.run DEV VITE_API_URL JSON_stringify encodeURIComponent
                    evs Spec.session0)))
       = before ++ after.
Proof.
  intros Hadm Hin.
  assert (Hkeys : Spec.keysFresh
                    (Spec.run DEV VITE_API_URL JSON_stringify encodeURIComponent
                       evs Spec.session0)).
  { apply (run_invariant DEV VITE_API_URL JSON_stringify encodeURIComponent
             Spec.keysFresh); [| |assumption].
    - intros ev s Hs _. now apply fire_keysFresh.
    - split; [simpl; lia|]. split; constructor. }
  apply (filter_remove_unique EditOperation.key (fun x y => negb (str_eq x y)));
    [|apply Hkeys|assumption].
  intros x y. rewrite negb_false_iff. apply str_eq_true.
Qed.

Lemma session_remove_exact_witness :
  exists before after,
    App.edits (snd Samples.afterEditSession)
    = before ++ Samples.editAt "edit-2" 0 100%float 700%float "Salut" :: after
    /\ App.edits
         (EditPanel.removeClicked App.handleRemoveEdit
            (Samples.editAt "edit-2" 0 100%float 700%float "Salut")
            (snd Samples.afterEditSession))
       = before ++ after.
Proof.
  apply (session_remove_exact true None Samples.stringify Samples.encode
           Samples.editSession
           (Samples.editAt "edit-2" 0 100%float 700%float "Salut")
           editSession_admissible).
  vm_compute. left.
Defined.

(** X9. The edits' texts. In every session each edit of the list has a
    new text that is not empty, has no white space at its start or end,
    and differs from the original text. *)
Theorem session_edits_trimmed
  (DEV : bool) (VITE_API_URL : option jsstring)
  (JSON_stringify : Api.JSValue -> jsstring)
  (encodeURIComponent : jsstring -> result jsstring) (evs : list Spec.Event) :
  Spec.admissible DEV VITE_API_URL JSON_stringify encodeURIComponent evs
    Spec.session0 ->
  Forall Spec.trimmedEdit
    (App.edits (snd (Spec.run DEV VITE_API_URL JSON_stringify encodeURIComponent
                       evs Spec.session0))).
Proof.
  intros Hadm.
  apply (run_invariant DEV VITE_API_URL JSON_stringify encodeURIComponent
           (fun s => Forall Spec.trimmedEdit (App.edits (snd s))));
    [| |assumption].
  - intros ev s Hs _. now apply fire_trimmed.
  - constructor.
Qed.

Lemma session_edits_trimmed_witness :
  List.map EditOperation.new_text (App.edits (snd Samples.afterEditSession))
  = [lit "Salut"]
  /\ Forall Spec.trimmedEdit (App.edits (snd Samples.afterEditSession)).
Proof.
  split; [reflexivity|].
  apply (session_edits_trimmed true None Samples.stringify Samples.encode
           Samples.editSession editSession_admissible).
Defined.

(** X10. Pages. In every session the current page is a page of the
    document (page 0 for a document without pages), and so is the page of
    every edit of the list; without a document there is no edit. *)
Theorem session_pages_valid
  (DEV : bool) (VITE_API_URL : option jsstring)
  (JSON_stringify : Api.JSValue -> jsstring)
  (encodeURIComponent : jsstring -> result jsstring) (evs : list Spec.Event) :
  Spec.admissible DEV VITE_API_URL JSON_stringify encodeURIComponent evs
    Spec.session0 ->
  Spec.pagesValid (snd (Spec.run DEV VITE_API_URL JSON_stringify
                          encodeURIComponent evs Spec.session0)).
Proof.
  intros Hadm.
  apply (run_invariant DEV VITE_API_URL JSON_stringify encodeURIComponent
           (fun s => Spec.pagesValid (snd s))); [| |assumption].
  - intros ev s Hs Hen. now apply fire_pagesValid.
  - split; reflexivity.
Qed.

Lemma session_pages_valid_witness :
  App.currentPage (snd Samples.afterEditSession) = 1%Z
  /\ Spec.pagesValid (snd Samples.afterEditSession).
Proof.
  split; [reflexivity|].
  apply (session_pages_valid true None Samples.stringify Samples.encode
           Samples.editSession editSession_admissible).
Defined.

(* ===================================================================== *)
(** * What the user is told *)
(* ===================================================================== *)

(** X11. Every upload ends with [uploading] cleared and exactly one new
    toast, with a fresh id: the success message when the server's answer
    is ok and parses, the message [API status: body] of [request] when the
    answer is not ok (with an empty body when the body cannot be read),
    the parse error's message, or "Erro no upload", when an ok answer
    does not parse, and the rejection's message, or "Erro no upload",
    when no answer arrives. *)
Theorem handleFile_reports
  (DEV : bool) (VITE_API_URL : option jsstring)
  (fetch : Api.Request -> result (Api.Response DocumentInfo.t))
  (file : Api.File) (s : App.State) :
  App.uploading (App.handleFile DEV VITE_API_URL fetch file s) = false
  /\ App.toasts (App.handleFile DEV VITE_API_URL fetch file s)
     = App.toasts s
       ++ [App.mkToast (App.toastId s + 1)
             (match fetch (Spec.uploadRequest DEV VITE_API_URL file) with
              | Return res =>
                  if Api.ok res
                  then match Api.json res with
                       | Return info => App.uploadedMessage info
                       | Throw e => nullish (message_of e) (lit "Erro no upload")
                       end
                  else Spec.apiError res
              | Throw e => nullish (message_of e) (lit "Erro no upload")
              end)
             (match fetch (Spec.uploadRequest DEV VITE_API_URL file) with
              | Return res =>
                  if Api.ok res
                  then match Api.json res with
                       | Return _ => App.success
                       | Throw _ => App.error
                       end
                  else App.error
              | Throw _ => App.error
              end)].
Proof.
  unfold App.handleFile, Api.uploadDocument, Api.request.
  change (Api.mkRequest (Api.BASE DEV VITE_API_URL ++ lit "/api/documents")
            (lit "POST") [] (Api.FormBody file))
    with (Spec.uploadRequest DEV VITE_API_URL file).
  destruct (fetch (Spec.uploadRequest DEV VITE_API_URL file)) as [res|err];
    [|split; reflexivity].
  destruct (Api.ok res); simpl.
  - destruct (Api.json res); split; reflexivity.
  - split; reflexivity.
Qed.

(** X12. An export that passes the guard ends with [exporting] cleared
    and exactly one new toast: the success message when an answer
    arrives, is ok and its body is read; the message of
    [exportDocument]'s error when the answer is not ok; and the message
    of what [fetch] or the read of the body threw, or "Erro ao exportar",
    when no answer arrives or the body of an ok answer cannot be read.
    The document, the page and the edits are kept, so the export can be
    asked again. *)
Theorem handleExport_reports
  (DEV : bool) (VITE_API_URL : option jsstring)
  (JSON_stringify : Api.JSValue -> jsstring)
  (T : Type) (fetch : Api.Request -> result (Api.Response T))
  (s : App.State) (info : DocumentInfo.t) :
  App.docInfo s = Some info -> App.edits s <> [] ->
  App.exporting (fst (App.handleExport DEV VITE_API_URL JSON_stringify fetch s))
  = false
  /\ App.toasts (fst (App.handleExport DEV VITE_API_URL JSON_stringify fetch s))
     = App.toasts s
       ++ [App.mkToast (App.toastId s + 1)
             (match fetch (Api.exportRequest DEV VITE_API_URL JSON_stringify
                             (DocumentInfo.id info) (App.edits s)) with
              | Return res =>
                  if Api.ok res
                  then match Api.blob res with
                       | Return _ => lit "PDF exportado com sucesso!"
                       | Throw e => nullish (message_of e) (lit "Erro ao exportar")
                       end
                  else lit "Export failed (" ++ Number_toString (Api.status res)
                         ++ lit "): " ++ catch (Api.text res) (lit "")
              | Throw e => nullish (message_of e) (lit "Erro ao exportar")
              end)
             (match fetch (Api.exportRequest DEV VITE_API_URL JSON_stringify
                             (DocumentInfo.id info) (App.edits s)) with
              | Return res =>
                  if Api.ok res
                  then match Api.blob res with
                       | Return _ => App.success
                       | Throw _ => App.error
                       end
                  else App.error
              | Throw _ => App.error
              end)]
  /\ App.edits (fst (App.handleExport DEV VITE_API_URL JSON_stringify fetch s))
     = App.edits s
  /\ App.docInfo (fst (App.handleExport DEV VITE_API_URL JSON_stringify fetch s))
     = Some info
  /\ App.currentPage (fst (App.handleExport DEV VITE_API_URL JSON_stringify fetch s))
     = App.currentPage s.
Proof.
  intros Hdoc Hedits. unfold App.handleExport. rewrite Hdoc.
  destruct (App.edits s) as [|e l] eqn:El; [congruence|]. simpl.
  unfold Api.exportDocument.
  destruct (fetch _) as [res|err]; simpl.
  - destruct (Api.ok res); simpl.
    + destruct (Api.blob res); simpl; rewrite ?Hdoc, ?El; repeat split.
    + rewrite ?Hdoc, ?El; repeat split.
  - rewrite ?Hdoc, ?El; repeat split.
Qed.

Lemma handleExport_reports_witness :
  App.exporting
    (fst (App.handleExport true None Samples.stringify (@Samples.serverDown unit)
            (App.handleAddEdit Samples.bonjour Samples.loaded)))
  = false
  /\ List.map App.toast_message
       (App.toasts
          (fst (App.handleExport true None Samples.stringify
                  (@Samples.serverDown unit)
                  (App.handleAddEdit Samples.bonjour Samples.loaded))))
     = [App.uploadedMessage Samples.doc; lit "Export failed (500): boom"]
  /\ App.edits
       (fst (App.handleExport true None Samples.stringify (@Samples.serverDown unit)
               (App.handleAddEdit Samples.bonjour Samples.loaded)))
     = [Samples.bonjour]
  /\ List.map (fun t => (App.toast_message t, App.toast_type t))
       (App.toasts
          (fst (App.handleExport true None Samples.stringify
                  (@Samples.serverCut unit)
                  (App.handleAddEdit Samples.bonjour Samples.loaded))))
     = [(App.uploadedMessage Samples.doc, App.success);
        (lit "network error", App.error)].
Proof.
  destruct (handleExport_reports true None Samples.stringify unit
              Samples.serverDown
              (App.handleAddEdit Samples.bonjour Samples.loaded) Samples.doc)
    as (Hexp & Htoasts & Hedits & _).
  - reflexivity.
  - simpl. discriminate.
  - split; [exact Hexp|]. split; [|split; [exact Hedits|]].
    + rewrite Htoasts. reflexivity.
    + destruct (handleExport_reports true None Samples.stringify unit
                  Samples.serverCut
                  (App.handleAddEdit Samples.bonjour Samples.loaded) Samples.doc)
        as (_ & Hcut & _).
      * reflexivity.
      * simpl. discriminate.
      * rewrite Hcut. reflexivity.
Defined.

(* ===================================================================== *)
(** * The page effect and the font effect *)
(* ===================================================================== *)

(** X13. Once the page is drawn, fetching its text never raises: when the
    request fails (no answer, an answer that is not ok, or one that does
    not parse) the page text is cleared, so the overlay has no span and
    the spans of the previous page are gone; when it succeeds the overlay
    shows the answered spans. An effect cancelled meanwhile, or a page
    that could not be drawn, leaves the viewer as it was, and only the
    latter raises. *)
Theorem render_text_layer
  (DEV : bool) (VITE_API_URL : option jsstring)
  (fetchText : Api.Request -> result (Api.Response PageText.t))
  (docId : jsstring) (currentPage : Z) (s : PdfViewer.State) :
  fst (PdfViewer.render DEV VITE_API_URL (Return tt) fetchText false docId
         currentPage s) = Return tt
  /\ PdfViewer.pageText
       (snd (PdfViewer.render DEV VITE_API_URL (Return tt) fetchText false docId
               currentPage s))
     = match fetchText (Spec.pageTextRequest DEV VITE_API_URL docId currentPage) with
       | Return res =>
           if Api.ok res
           then match Api.json res with
                | Return text => Some text
                | Throw _ => None
                end
           else None
       | Throw _ => None
       end
  /\ PdfViewer.overlaySpans
       (snd (PdfViewer.render DEV VITE_API_URL (Return tt) fetchText false docId
               currentPage s))
     = match fetchText (Spec.pageTextRequest DEV VITE_API_URL docId currentPage) with
       | Return res =>
           if Api.ok res
           then match Api.json res with
                | Return text => PageText.spans text
                | Throw _ => []
                end
           else []
       | Throw _ => []
       end
  /\ PdfViewer.render DEV VITE_API_URL (Return tt) fetchText true docId
       currentPage s = (Return tt, s)
  /\ (forall (e : thrown) (cancelled : bool),
        PdfViewer.render DEV VITE_API_URL (Throw e) fetchText cancelled docId
          currentPage s = (Throw e, s)).
Proof.
  unfold PdfViewer.render, PdfViewer.try_catch, PdfViewer.bind,
    PdfViewer.await, PdfViewer.modify, PdfViewer.ret,
    PdfViewer.overlaySpans, Api.getPageText, Api.request.
  change (Api.mkRequest
            (Api.BASE DEV VITE_API_URL
               ++ lit "/api/documents/" ++ docId ++ lit "/pages/"
               ++ Number_toString currentPage ++ lit "/text")
            (lit "GET") [] Api.NoBody)
    with (Spec.pageTextRequest DEV VITE_API_URL docId currentPage).
  simpl.
  destruct (fetchText _) as [res|err]; simpl; [|repeat split].
  destruct (Api.ok res); simpl.
  - destruct (Api.json res); simpl; repeat split.
  - repeat split.
Qed.

(** On the samples: a page whose text cannot be fetched loses the spans
    of the page shown before. *)
Lemma render_text_layer_samples :
  PdfViewer.overlaySpans
    (snd (PdfViewer.render true None (Return tt) (Samples.serverOk (Return Samples.firstPage))
            false (lit "doc-2") 0 Spec.viewer0))
  = [Samples.span]
  /\ PdfViewer.overlaySpans
       (snd (PdfViewer.render true None (Return tt) Samples.serverDown false
               (lit "doc-2") 1
               (snd (PdfViewer.render true None (Return tt)
                       (Samples.serverOk (Return Samples.firstPage))
                       false (lit "doc-2") 0 Spec.viewer0))))
     = []
  /\ PdfViewer.overlaySpans
       (snd (PdfViewer.render true None (Return tt) Samples.offline false
               (lit "doc-2") 1
               (snd (PdfViewer.render true None (Return tt)
                       (Samples.serverOk (Return Samples.firstPage))
                       false (lit "doc-2") 0 Spec.viewer0))))
     = [].
Proof. repeat split; reflexivity. Qed.

(** X14. The font effect leaves the inline editor alone: the key counter,
    the page text, the span being edited and the value typed are what
    they were, whatever the listing and the loads do. Once the effect is
    cancelled, it no longer changes the set of loaded fonts either. *)
Theorem loadFonts_leaves_editor
  (DEV : bool) (VITE_API_URL : option jsstring)
  (encodeURIComponent : jsstring -> result jsstring)
  (fetchFonts : Api.Request -> result (Api.Response (list jsstring)))
  (load : PdfViewer.FontFace -> result PdfViewer.FontFace)
  (cancelled : jsstring -> bool)
  (docId : jsstring) (captured : gset jsstring) (s : PdfViewer.State) :
  Spec.sameEditor s
    (snd (PdfViewer.loadFonts DEV VITE_API_URL encodeURIComponent fetchFonts
            load cancelled docId captured s))
  /\ ((forall name, cancelled name = true) ->
      PdfViewer.loadedFonts
        (snd (PdfViewer.loadFonts DEV VITE_API_URL encodeURIComponent fetchFonts
                load cancelled docId captured s))
      = PdfViewer.loadedFonts s).
Proof.
  destruct (loadFonts_frame DEV VITE_API_URL encodeURIComponent fetchFonts load
              cancelled docId captured s) as [Hsame Hfonts].
  split; assumption.
Qed.

Lemma loadFonts_leaves_editor_witness :
  PdfViewer.editValue
    (snd (PdfViewer.loadFonts true None Samples.encode
            (Samples.serverOk (Return [lit "Foo-Bold"; lit "Roboto-Regular"]))
            Samples.loadRoboto Samples.alwaysCancelled (lit "doc-1") ∅
            (Samples.editing "Salut")))
  = lit "Salut"
  /\ PdfViewer.loadedFonts
       (snd (PdfViewer.loadFonts true None Samples.encode
               (Samples.serverOk (Return [lit "Foo-Bold"; lit "Roboto-Regular"]))
               Samples.loadRoboto Samples.alwaysCancelled (lit "doc-1") ∅
               (Samples.editing "Salut")))
     = ∅.
Proof.
  destruct (loadFonts_leaves_editor true None Samples.encode
              (Samples.serverOk (Return [lit "Foo-Bold"; lit "Roboto-Regular"]))
              Samples.loadRoboto Samples.alwaysCancelled (lit "doc-1") ∅
              (Samples.editing "Salut")) as [(_ & _ & _ & Hvalue) Hfonts].
  split; [exact Hvalue|]. apply Hfonts. reflexivity.
Defined.

(* ===================================================================== *)
(** * Submitting an edit again *)
(* ===================================================================== *)

Lemma findIndex_first {A : Type} (p : A -> bool) (l : list A) (i : nat) (x : A) :
  l !! i = Some x -> p x = true ->
  (forall j y, j < i -> l !! j = Some y -> p y = false) ->
  findIndex p l = Z.of_nat i.
Proof.
  intros Hl Hp Hfirst.
  assert (Hin : x ∈ l) by (eapply list_elem_of_lookup_2; eassumption).
  destruct (findIndex_some p l (findIndex_found p l x Hin Hp))
    as (k & y & Hk & Hlk & Hpy & Hfirstk).
  rewrite Hk. f_equal.
  destruct (Nat.lt_trichotomy k i) as [Hlt|[Heq|Hgt]]; [|assumption|].
  - rewrite (Hfirst k y Hlt Hlk) in Hpy. discriminate.
  - rewrite (Hfirstk i x Hgt Hl) in Hp. discriminate.
Qed.

(** X15. The match test of [handleAddEdit] does not depend on which of
    the two edits is the incoming one, and an edit with finite [x0] and
    [y0] matches itself; so submitting such an edit a second time leaves
    the list as the first submission made it. *)
Theorem handleAddEdit_idempotent (e : EditOperation.t) (s : App.State) :
  (forall a b, App.sameRect a b = App.sameRect b a)
  /\ (Spec.finite (Rect.x0 (EditOperation.rect e)) = true ->
      Spec.finite (Rect.y0 (EditOperation.rect e)) = true ->
      App.sameRect e e = true
      /\ App.edits (App.handleAddEdit e (App.handleAddEdit e s))
         = App.edits (App.handleAddEdit e s)).
Proof.
  split; [apply sameRect_comm|].
  intros Hfx Hfy. pose proof (sameRect_refl e Hfx Hfy) as Hrefl.
  split; [assumption|].
  rewrite !edits_handleAddEdit.
  assert (Hat : exists i,
             App.addEdit e (App.edits s) !! i = Some e
             /\ forall j y, j < i -> App.addEdit e (App.edits s) !! j = Some y ->
                            App.sameRect e y = false).
  { destruct (addEdit_cases e (App.edits s))
      as [[-> Hnone]|(i & old & Hl & _ & Hfirst & ->)].
    - exists (length (App.edits s)). split.
      + rewrite lookup_app_r, Nat.sub_diag; [reflexivity|lia].
      + intros j z Hj Hz. rewrite lookup_app_l in Hz by assumption.
        apply Hnone. eapply list_elem_of_lookup_2; eassumption.
    - exists i. split.
      + apply list_lookup_insert_eq. eapply lookup_lt_Some; eassumption.
      + intros j z Hj Hz. rewrite list_lookup_insert_ne in Hz by lia.
        now apply (Hfirst j). }
  destruct Hat as (i & Hi & Hfirst).
  unfold App.addEdit at 1.
  rewrite (findIndex_first _ _ i e Hi Hrefl Hfirst).
  destruct (0 <=? Z.of_nat i)%Z eqn:E; [|apply Z.leb_gt in E; lia].
  rewrite Nat2Z.id. now apply list_insert_id.
Qed.

Lemma handleAddEdit_idempotent_witness :
  App.sameRect Samples.salut Samples.salut = true
  /\ App.edits (App.handleAddEdit Samples.salut
                  (App.handleAddEdit Samples.salut
                     (Spec.addAll [Samples.other; Samples.bonjour] Spec.initial)))
     = App.edits (App.handleAddEdit Samples.salut
                    (Spec.addAll [Samples.other; Samples.bonjour] Spec.initial)).
Proof.
  apply (handleAddEdit_idempotent Samples.salut
           (Spec.addAll [Samples.other; Samples.bonjour] Spec.initial));
    reflexivity.
Defined.
